(** * A content-addressed replicated file store (src/main.py)

    Shallow embedding of the classes [Node] and
    [DistributedFileStorageSystem] and the properties of their
    store / retrieve / delete / registry operations.

    Python objects have identity: the registry [self.nodes] is a list of
    references to [Node] objects, and a node written through one
    reference is changed for every holder of that reference.  The
    embedding therefore keeps the node objects in an object store
    ([objs], keyed by reference) and the registry as a list of
    references. *)

From Stdlib Require Import ZArith.
From Stdlib.Strings Require Import Byte.
From stdpp Require Import gmap strings list fin_maps.

Open Scope Z_scope.

(** ** Data *)

(** Python [bytes].  References to [Node] objects are natural numbers. *)
Abbreviation bytes := (list byte).

(** [class Node]: [self.node_id], [self.files]. *)
Record Node := mkNode {
  node_id : string;
  files : gmap string bytes
}.

(** The value of [self.file_map[file_id]]: the dict
    [{"filename": ..., "nodes": [...]}]. *)
Record Entry := mkEntry {
  entry_filename : string;
  entry_nodes : list string
}.

(** One constructor per logging call of the source, carrying the values
    interpolated into its message. *)
Inductive LogRecord :=
  | Info_node_added (node_id : string)
  | Info_node_removed (node_id : string)
  | Info_already_exists (filename file_id : string)
  | Info_stored (filename file_id : string) (nodes : list string)
  | Error_not_found (file_id : string)
  | Error_not_retrievable (file_id : string)
  | Info_deleted (file_id : string).

(** The exceptions that escape the methods: only [random.sample] raises. *)
Inductive Exn :=
  | ValueError.

(** [class DistributedFileStorageSystem] together with the [Node] objects
    that exist: [objs] maps every reference to the object it denotes. *)
Record State := mkState {
  objs : gmap nat Node;
  nodes : list nat;
  file_map : gmap string Entry;
  num_replicas : Z
}.

(** The result of a call: the value returned or the exception raised, the
    state the call leaves behind, and the log records it emitted. *)
Inductive Outcome (A : Type) :=
  | Returned (v : A) (s : State) (log : list LogRecord)
  | Raised (e : Exn) (s : State) (log : list LogRecord).
Arguments Returned {A} v s log.
Arguments Raised {A} e s log.

Definition state_of {A} (o : Outcome A) : State :=
  match o with
  | Returned _ s _ => s
  | Raised _ s _ => s
  end.

Definition value_of {A} (o : Outcome A) : option A :=
  match o with
  | Returned v _ _ => Some v
  | Raised _ _ _ => None
  end.

Definition log_of {A} (o : Outcome A) : list LogRecord :=
  match o with
  | Returned _ _ l => l
  | Raised _ _ l => l
  end.

(** ** class Node *)

(** [Node.__init__] *)
Definition Node_init (node_id : string) : Node := mkNode node_id ∅.

(** [Node.store_file]: [self.files[file_id] = data]. *)
Definition Node_store_file (file_id : string) (data : bytes) (self : Node) : Node :=
  mkNode (node_id self) (<[file_id := data]> (files self)).

(** [Node.get_file]: [self.files.get(file_id, None)]. *)
Definition Node_get_file (file_id : string) (self : Node) : option bytes :=
  files self !! file_id.

(** [Node.delete_file]: [del self.files[file_id]] when the key is there. *)
Definition Node_delete_file (file_id : string) (self : Node) : Node :=
  match files self !! file_id with
  | Some _ => mkNode (node_id self) (delete file_id (files self))
  | None => self
  end.

(** ** The object store *)

Global Instance Node_inhabited : Inhabited Node := populate (Node_init "").

(** The object a reference denotes. *)
Definition obj (h : gmap nat Node) (r : nat) : Node := h !!! r.

(** A method call that mutates the object behind [r]. *)
Definition call (f : Node → Node) (r : nat) (h : gmap nat Node) : gmap nat Node :=
  alter f r h.

(** [Node(node_id)]: a new object, at a reference not in use. *)
Definition new_ref (h : gmap nat Node) : nat := fresh (dom h).

Definition alloc (node_id : string) (h : gmap nat Node) : gmap nat Node :=
  <[new_ref h := Node_init node_id]> h.

(** Python truthiness of [bytes]: the empty value is false. *)
Definition truthy (data : bytes) : bool :=
  match data with
  | [] => false
  | _ :: _ => true
  end.

(** ** random.sample

    [random.sample(population, k)] raises [ValueError] unless
    [0 <= k <= len(population)], and otherwise returns [k] elements taken
    at pairwise distinct positions of [population].  The random source is
    made explicit as a list of draws: each draw, reduced modulo the number
    of positions still in the pool, names the position taken next. *)
Fixpoint draw_from {A} (draws : list nat) (pool : list A) (k : nat) : list A :=
  match k with
  | O => []
  | S k' =>
      let j := (hd 0%nat draws `mod` length pool)%nat in
      match pool !! j with
      | Some x => x :: draw_from (tl draws) (delete j pool) k'
      | None => []
      end
  end.

Definition random_sample {A} (draws : list nat) (population : list A) (k : Z)
  : option (list A) :=
  if decide (0 ≤ k ≤ Z.of_nat (length population))
  then Some (draw_from draws population (Z.to_nat k))
  else None.

(** ** hashlib.sha256

    [hash_file] is [hashlib.sha256(data).hexdigest()]; the operations use
    it as a function from payloads to identifiers and nothing more. *)
Class Digest := hexdigest : bytes → string.

(** ** class DistributedFileStorageSystem *)

(** [DistributedFileStorageSystem.__init__], before any [Node] exists. *)
Definition init (num_replicas : Z) : State :=
  mkState ∅ [] ∅ num_replicas.

(** [add_node] *)
Definition add_node (node : nat) (st : State) : Outcome unit :=
  Returned tt
    (mkState (objs st) (nodes st ++ [node]) (file_map st) (num_replicas st))
    [Info_node_added (node_id (obj (objs st) node))].

(** [remove_node] *)
Definition remove_node (nid : string) (st : State) : Outcome unit :=
  Returned tt
    (mkState (objs st)
       (filter (λ node, node_id (obj (objs st) node) ≠ nid) (nodes st))
       (file_map st) (num_replicas st))
    [Info_node_removed nid].

(** [hash_file] *)
Definition hash_file `{Digest} (data : bytes) : string := hexdigest data.

(** [next((n for n in self.nodes if n.node_id == node_id), None)] *)
Fixpoint find_node (h : gmap nat Node) (ns : list nat) (nid : string) : option nat :=
  match ns with
  | [] => None
  | n :: rest =>
      if decide (node_id (obj h n) = nid) then Some n else find_node h rest nid
  end.

(** The loop [for node in selected_nodes: node.store_file(file_id, data)]. *)
Definition store_loop (file_id : string) (data : bytes) (selected : list nat)
    (h : gmap nat Node) : gmap nat Node :=
  foldl (λ h node, call (Node_store_file file_id data) node h) h selected.

(** [store_file] *)
Definition store_file `{Digest} (draws : list nat) (filename : string)
    (data : bytes) (st : State) : Outcome string :=
  let file_id := hash_file data in
  match file_map st !! file_id with
  | Some _ => Returned file_id st [Info_already_exists filename file_id]
  | None =>
      match random_sample draws (nodes st) (num_replicas st) with
      | None => Raised ValueError st []
      | Some selected_nodes =>
          let h := store_loop file_id data selected_nodes (objs st) in
          let e := mkEntry filename
                     ((λ node, node_id (obj h node)) <$> selected_nodes) in
          Returned file_id
            (mkState h (nodes st) (<[file_id := e]> (file_map st))
               (num_replicas st))
            [Info_stored filename file_id (entry_nodes e)]
      end
  end.

(** The loop of [retrieve_file] over [self.file_map[file_id]['nodes']]: the
    first listed id whose node, found in the registry, gives truthy data. *)
Fixpoint retrieve_loop (st : State) (file_id : string) (nids : list string)
  : option bytes :=
  match nids with
  | [] => None
  | nid :: rest =>
      match find_node (objs st) (nodes st) nid with
      | Some node =>
          match Node_get_file file_id (obj (objs st) node) with
          | Some data =>
              if truthy data then Some data else retrieve_loop st file_id rest
          | None => retrieve_loop st file_id rest
          end
      | None => retrieve_loop st file_id rest
      end
  end.

(** [retrieve_file] *)
Definition retrieve_file (file_id : string) (st : State) : Outcome (option bytes) :=
  match file_map st !! file_id with
  | None => Returned None st [Error_not_found file_id]
  | Some e =>
      match retrieve_loop st file_id (entry_nodes e) with
      | Some data => Returned (Some data) st []
      | None => Returned None st [Error_not_retrievable file_id]
      end
  end.

(** The loop of [delete_file] over [self.file_map[file_id]['nodes']]. *)
Fixpoint delete_loop (ns : list nat) (file_id : string) (nids : list string)
    (h : gmap nat Node) : gmap nat Node :=
  match nids with
  | [] => h
  | nid :: rest =>
      match find_node h ns nid with
      | Some node =>
          delete_loop ns file_id rest (call (Node_delete_file file_id) node h)
      | None => delete_loop ns file_id rest h
      end
  end.

(** [delete_file] *)
Definition delete_file (file_id : string) (st : State) : Outcome bool :=
  match file_map st !! file_id with
  | None => Returned false st [Error_not_found file_id]
  | Some e =>
      Returned true
        (mkState (delete_loop (nodes st) file_id (entry_nodes e) (objs st))
           (nodes st) (delete file_id (file_map st)) (num_replicas st))
        [Info_deleted file_id]
  end.

(** ** Notions used in the statements *)

(** The objects that the loops of [retrieve_file] and [delete_file] reach:
    for each listed id, the first node of the registry that carries it. *)
Definition resolved (h : gmap nat Node) (ns : list nat) (nids : list string)
  : list nat :=
  omap (find_node h ns) nids.

(** Every registered node is the first of the registry with its id: no two
    registered objects share an id. *)
Definition distinct_ids (st : State) : Prop :=
  ∀ r, r ∈ nodes st →
    find_node (objs st) (nodes st) (node_id (obj (objs st) r)) = Some r.

(** Every registered reference denotes an object. *)
Definition registry_allocated (st : State) : Prop :=
  ∀ r, r ∈ nodes st → is_Some (objs st !! r).

(** What one round of the loop of [retrieve_file] obtains for a listed id:
    the data of the node the id resolves to, when there is such a node and
    its data is truthy. *)
Definition probe (st : State) (file_id nid : string) : option bytes :=
  match find_node (objs st) (nodes st) nid with
  | Some node =>
      match Node_get_file file_id (obj (objs st) node) with
      | Some data => if truthy data then Some data else None
      | None => None
      end
  | None => None
  end.

(** The route [/add_node]: [dfs.add_node(Node(node_id))]. *)
Definition api_add_node (nid : string) (st : State) : Outcome unit :=
  add_node (new_ref (objs st))
    (mkState (alloc nid (objs st)) (nodes st) (file_map st) (num_replicas st)).

(** ** Sequences of calls *)

(** The calls a client can make.  [New_node] is the constructor
    [Node(node_id)]; the others are the methods of the storage system. *)
Inductive Op :=
  | New_node (nid : string)
  | Add_node (node : nat)
  | Remove_node (nid : string)
  | Store_file (draws : list nat) (filename : string) (data : bytes)
  | Retrieve_file (file_id : string)
  | Delete_file (file_id : string).

(** The state after one call.  A reference can only be passed to
    [add_node] once the object exists; a trace that names a reference not
    yet in use has no counterpart in Python and leaves the state alone. *)
Definition step `{Digest} (op : Op) (st : State) : State :=
  match op with
  | New_node nid =>
      mkState (alloc nid (objs st)) (nodes st) (file_map st) (num_replicas st)
  | Add_node node =>
      match objs st !! node with
      | Some _ => state_of (add_node node st)
      | None => st
      end
  | Remove_node nid => state_of (remove_node nid st)
  | Store_file draws filename data => state_of (store_file draws filename data st)
  | Retrieve_file file_id => state_of (retrieve_file file_id st)
  | Delete_file file_id => state_of (delete_file file_id st)
  end.

Definition run `{Digest} (ops : list Op) (st : State) : State :=
  foldl (λ st op, step op st) st ops.

(** No payload stored anywhere in [ops] shares the identifier [file_id]
    with a payload other than [data]. *)
Definition collision_free `{Digest} (ops : list Op) (file_id : string)
    (data : bytes) : Prop :=
  ∀ draws filename data',
    Store_file draws filename data' ∈ ops →
    hash_file data' = file_id → data' = data.

(** ** SHA-256 (FIPS 180-4), the function behind [hashlib.sha256] *)
Module SHA256.

Definition w32 (x : Z) : Z := x `mod` 2 ^ 32.
Definition rotr (n x : Z) : Z := Z.lor (x ≫ n) (w32 (x ≪ (32 - n))).
Definition xor3 (x y z : Z) : Z := Z.lxor x (Z.lxor y z).

Definition Ch (x y z : Z) : Z := Z.lxor (Z.land x y) (Z.land (Z.lnot x) z).
Definition Maj (x y z : Z) : Z :=
  xor3 (Z.land x y) (Z.land x z) (Z.land y z).
Definition Sigma0 (x : Z) : Z := xor3 (rotr 2 x) (rotr 13 x) (rotr 22 x).
Definition Sigma1 (x : Z) : Z := xor3 (rotr 6 x) (rotr 11 x) (rotr 25 x).
Definition sigma0 (x : Z) : Z := xor3 (rotr 7 x) (rotr 18 x) (x ≫ 3).
Definition sigma1 (x : Z) : Z := xor3 (rotr 17 x) (rotr 19 x) (x ≫ 10).

(** The first 64 primes. *)
Definition primes : list Z :=
  [2; 3; 5; 7; 11; 13; 17; 19; 23; 29; 31; 37; 41; 43; 47; 53;
   59; 61; 67; 71; 73; 79; 83; 89; 97; 101; 103; 107; 109; 113; 127; 131;
   137; 139; 149; 151; 157; 163; 167; 173; 179; 181; 191; 193; 197; 199;
   211; 223; 227; 229; 233; 239; 241; 251; 257; 263; 269; 271; 277; 281;
   283; 293; 307; 311].

(** Integer cube root by bisection: the largest [r] in [lo, hi) with
    [r ^ 3 <= n]. *)
Fixpoint cbrt_between (fuel : nat) (lo hi n : Z) : Z :=
  match fuel with
  | O => lo
  | S fuel' =>
      let mid := (lo + hi) `div` 2 in
      if decide (mid ^ 3 ≤ n)
      then cbrt_between fuel' mid hi n
      else cbrt_between fuel' lo mid n
  end.

(** Round constants: the first 32 bits of the fractional parts of the
    cube roots of the first 64 primes. *)
Definition K : list Z :=
  Eval vm_compute in
    map (λ p, w32 (cbrt_between 40 0 (2 ^ 36) (p * 2 ^ 96))) primes.

(** Initial hash value: the same for the square roots of the first 8. *)
Definition H0 : list Z :=
  Eval vm_compute in
    map (λ p, w32 (Z.sqrt (p * 2 ^ 64))) (take 8 primes).

(** [n] bytes, most significant first. *)
Fixpoint be_bytes (n : nat) (x : Z) : list Z :=
  match n with
  | O => []
  | S n' => (x ≫ (8 * Z.of_nat n')) `mod` 256 :: be_bytes n' x
  end.

Definition be_word (bs : list Z) : Z := foldl (λ acc b, acc * 256 + b) 0 bs.

Definition pad (msg : list Z) : list Z :=
  let len := Z.of_nat (length msg) in
  msg ++ [128] ++ replicate (Z.to_nat ((55 - len) `mod` 64)) 0
      ++ be_bytes 8 (8 * len).

Fixpoint chunks {A} (fuel n : nat) (l : list A) : list (list A) :=
  match fuel, l with
  | O, _ | _, [] => []
  | S fuel', _ => take n l :: chunks fuel' n (drop n l)
  end.

Fixpoint schedule (n : nat) (w : list Z) : list Z :=
  match n with
  | O => w
  | S n' =>
      let t := length w in
      schedule n'
        (w ++ [w32 (sigma1 (w !!! (t - 2)%nat) + w !!! (t - 7)%nat
                    + sigma0 (w !!! (t - 15)%nat) + w !!! (t - 16)%nat)])
  end.

Definition round (s : list Z) (kw : Z * Z) : list Z :=
  match s with
  | [a; b; c; d; e; f; g; h] =>
      let t1 := h + Sigma1 e + Ch e f g + kw.1 + kw.2 in
      let t2 := Sigma0 a + Maj a b c in
      [w32 (t1 + t2); a; b; c; w32 (d + t1); e; f; g]
  | _ => s
  end.

Definition compress (hs : list Z) (block : list Z) : list Z :=
  let w := schedule 48 (be_word <$> chunks 16 4 block) in
  zip_with (λ x y, w32 (x + y)) hs (foldl round hs (zip K w)).

Definition digest (msg : list Z) : list Z :=
  let p := pad msg in
  foldl compress H0 (chunks (length p) 64 p).

Definition hex_digit (d : Z) : Ascii.ascii :=
  default Ascii.zero (String.list_ascii_of_string "0123456789abcdef" !! Z.to_nat d).

Definition hex_word (x : Z) : list Ascii.ascii :=
  (λ i, hex_digit ((x ≫ (4 * Z.of_nat i)) `mod` 16)) <$> [7; 6; 5; 4; 3; 2; 1; 0]%nat.

Definition hexdigest (data : bytes) : string :=
  String.string_of_list_ascii
    (digest ((λ b, Z.of_N (Byte.to_N b)) <$> data) ≫= hex_word).

End SHA256.

Definition sha256 : Digest := SHA256.hexdigest.

(** ['...'.encode('utf-8')] for ASCII text, as the route [/store] does. *)
Definition encode_utf8 (s : string) : bytes := String.list_byte_of_string s.

(** ** The routes

    A Python [str] is represented by the bytes of its UTF-8 encoding, so
    that [encode('utf-8')] lists those bytes and [decode('utf-8')] reads
    them back, raising [UnicodeDecodeError] on bytes that are not
    well-formed UTF-8. *)

Definition within (lo hi b : Z) : bool := (lo <=? b) && (b <=? hi).

(** The second byte of a three-byte and of a four-byte sequence: no
    overlong form, no surrogate, nothing above U+10FFFF. *)
Definition second_of_3 (b0 b1 : Z) : bool :=
  if b0 =? 0xE0 then within 0xA0 0xBF b1
  else if b0 =? 0xED then within 0x80 0x9F b1
  else within 0x80 0xBF b1.

Definition second_of_4 (b0 b1 : Z) : bool :=
  if b0 =? 0xF0 then within 0x90 0xBF b1
  else if b0 =? 0xF4 then within 0x80 0x8F b1
  else within 0x80 0xBF b1.

Fixpoint utf8_well_formed (bs : list Z) : bool :=
  match bs with
  | [] => true
  | b0 :: rest =>
      if b0 <=? 0x7F then utf8_well_formed rest
      else if within 0xC2 0xDF b0 then
        match rest with
        | b1 :: rest1 => within 0x80 0xBF b1 && utf8_well_formed rest1
        | _ => false
        end
      else if within 0xE0 0xEF b0 then
        match rest with
        | b1 :: b2 :: rest2 =>
            second_of_3 b0 b1 && within 0x80 0xBF b2 && utf8_well_formed rest2
        | _ => false
        end
      else if within 0xF0 0xF4 b0 then
        match rest with
        | b1 :: b2 :: b3 :: rest3 =>
            second_of_4 b0 b1 && within 0x80 0xBF b2 && within 0x80 0xBF b3
            && utf8_well_formed rest3
        | _ => false
        end
      else false
  end.

(** [data.decode('utf-8')]; [None] stands for [UnicodeDecodeError]. *)
Definition decode_utf8 (data : bytes) : option string :=
  if utf8_well_formed ((λ b, Z.of_N (Byte.to_N b)) <$> data)
  then Some (String.string_of_list_byte data)
  else None.

(** What a route hands to Flask: the JSON object and the status code. *)
Record Response := mkResponse {
  status_code : Z;
  json : gmap string string
}.

(** The exceptions that escape a route: those of the storage system, and
    the decoding error of [/retrieve]. *)
Inductive RouteExn :=
  | Propagated (e : Exn)
  | UnicodeDecodeError.

Inductive RouteOutcome :=
  | Responded (r : Response) (s : State) (log : list LogRecord)
  | RouteRaised (e : RouteExn) (s : State) (log : list LogRecord).

(** The route [/add_node], with its response. *)
Definition route_add_node (nid : string) (st : State) : RouteOutcome :=
  match api_add_node nid st with
  | Returned _ s log =>
      Responded
        (mkResponse 200 {["status" := "Node added"; "node_id" := nid]}) s log
  | Raised e s log => RouteRaised (Propagated e) s log
  end.

(** The route [/store], for a request that carries both fields. *)
Definition route_store_file `{Digest} (draws : list nat) (filename data : string)
    (st : State) : RouteOutcome :=
  match store_file draws filename (encode_utf8 data) st with
  | Returned file_id s log =>
      Responded
        (mkResponse 200 {["status" := "File stored"; "file_id" := file_id]})
        s log
  | Raised e s log => RouteRaised (Propagated e) s log
  end.

(** The route [/retrieve/<file_id>]. *)
Definition route_retrieve_file (file_id : string) (st : State) : RouteOutcome :=
  match retrieve_file file_id st with
  | Returned (Some data) s log =>
      if truthy data then
        match decode_utf8 data with
        | Some text =>
            Responded
              (mkResponse 200 {["status" := "File retrieved"; "data" := text]})
              s log
        | None => RouteRaised UnicodeDecodeError s log
        end
      else Responded (mkResponse 404 {["status" := "File not found"]}) s log
  | Returned None s log =>
      Responded (mkResponse 404 {["status" := "File not found"]}) s log
  | Raised e s log => RouteRaised (Propagated e) s log
  end.

(** The route [/delete/<file_id>]. *)
Definition route_delete_file (file_id : string) (st : State) : RouteOutcome :=
  match delete_file file_id st with
  | Returned true s log =>
      Responded (mkResponse 200 {["status" := "File deleted"]}) s log
  | Returned false s log =>
      Responded (mkResponse 404 {["status" := "File not found"]}) s log
  | Raised e s log => RouteRaised (Propagated e) s log
  end.

Definition route_state (o : RouteOutcome) : State :=
  match o with
  | Responded _ s _ => s
  | RouteRaised _ s _ => s
  end.

(** The text is one that a Python [str] can hold: its bytes are
    well-formed UTF-8. *)
Definition well_formed_text (text : string) : Prop :=
  utf8_well_formed ((λ b, Z.of_N (Byte.to_N b)) <$> encode_utf8 text) = true.

(** ** class DistributedFileStorageSystemTestCase

    A test is the conjunction of its assertions; a response that is not
    JSON, as when the route raised, fails it. *)

(** [setUp]: registry and directory emptied, three new nodes added; [h]
    holds the objects that earlier tests left behind. *)
Definition setUp (h : gmap nat Node) : State :=
  state_of (api_add_node "node3"
    (state_of (api_add_node "node2"
      (state_of (api_add_node "node1" (mkState h [] ∅ 3)))))).

Definition TestCase_test_add_node (h : gmap nat Node) : bool :=
  match route_add_node "node4" (setUp h) with
  | Responded r _ _ =>
      bool_decide (status_code r = 200)
      && bool_decide (json r !! "status" = Some "Node added")
      && bool_decide (json r !! "node_id" = Some "node4")
  | RouteRaised _ _ _ => false
  end.

Definition TestCase_test_store_file `{Digest} (draws : list nat)
    (h : gmap nat Node) : bool :=
  match route_store_file draws "test.txt" "Hello World" (setUp h) with
  | Responded r _ _ =>
      bool_decide (status_code r = 200)
      && bool_decide (json r !! "status" = Some "File stored")
      && bool_decide (is_Some (json r !! "file_id"))
  | RouteRaised _ _ _ => false
  end.

Definition TestCase_test_retrieve_file `{Digest} (draws : list nat)
    (h : gmap nat Node) : bool :=
  match route_store_file draws "test.txt" "Hello World" (setUp h) with
  | Responded store_response s1 _ =>
      match json store_response !! "file_id" with
      | Some file_id =>
          match route_retrieve_file file_id s1 with
          | Responded r _ _ =>
              bool_decide (status_code r = 200)
              && bool_decide (json r !! "status" = Some "File retrieved")
              && bool_decide (json r !! "data" = Some "Hello World")
          | RouteRaised _ _ _ => false
          end
      | None => false
      end
  | RouteRaised _ _ _ => false
  end.

Definition TestCase_test_delete_file `{Digest} (draws : list nat)
    (h : gmap nat Node) : bool :=
  match route_store_file draws "test.txt" "Hello World" (setUp h) with
  | Responded store_response s1 _ =>
      match json store_response !! "file_id" with
      | Some file_id =>
          match route_delete_file file_id s1 with
          | Responded delete_response s2 _ =>
              bool_decide (status_code delete_response = 200)
              && bool_decide
                   (json delete_response !! "status" = Some "File deleted")
              && match route_retrieve_file file_id s2 with
                 | Responded r _ _ =>
                     bool_decide (status_code r = 404)
                     && bool_decide
                          (json r !! "status" = Some "File not found")
                 | RouteRaised _ _ _ => false
                 end
          | RouteRaised _ _ _ => false
          end
      | None => false
      end
  | RouteRaised _ _ _ => false
  end.

(** ** Example systems *)

Definition hello : bytes := encode_utf8 "Hello World".

Definition hello_id : string :=
  "a591a6d40bf420404a011733cfb7b190d62c65bf0bcda32b57b277d9ad9f146e".

Definition empty_id : string :=
  "e3b0c44298fc1c149afbf4c8996fb92427ae41e4649b934ca495991b7852b855".

(** The set-up of the test case: [node1], [node2] and [node3] added
    through the route, replication factor 3. *)
Definition three_nodes : State :=
  state_of (api_add_node "node3"
    (state_of (api_add_node "node2"
      (state_of (api_add_node "node1" (init 3)))))).

(** The same with [hello] stored under [test.txt]. *)
Definition three_nodes_hello : State :=
  state_of (store_file (H := sha256) [] "test.txt" hello three_nodes).

(** Two nodes only, replication factor 3. *)
Definition two_nodes : State :=
  state_of (api_add_node "node2"
    (state_of (api_add_node "node1" (init 3)))).

(** One node, replication factor 1. *)
Definition one_node : State :=
  state_of (api_add_node "node1" (init 1)).

(** The route [/add_node] called a second time with the same id: two
    objects named [node1]. *)
Definition twins : State :=
  state_of (api_add_node "node1" one_node).

(** [hello] stored on the second of the twins. *)
Definition twins_hello : State :=
  state_of (store_file (H := sha256) [1%nat] "test.txt" hello twins).

(** [hello] stored on three nodes, which then all leave the registry. *)
Definition all_departed : State :=
  state_of (remove_node "node3"
    (state_of (remove_node "node2"
      (state_of (remove_node "node1" three_nodes_hello))))).

(** ... and then deleted. *)
Definition twins_deleted : State :=
  state_of (delete_file hello_id twins_hello).

(** The empty payload stored on three nodes. *)
Definition three_nodes_empty : State :=
  state_of (store_file (H := sha256) [] "empty.txt" [] three_nodes).

(** The calls behind [all_departed] up to the first departure. *)
Definition first_departure : list Op :=
  [New_node "node1"; Add_node 0%nat; New_node "node2"; Add_node 1%nat;
   New_node "node3"; Add_node 2%nat; Store_file [] "test.txt" hello;
   Remove_node "node1"].

(** [hello] on three nodes, and a fourth node added afterwards. *)
Definition four_nodes_hello : State :=
  state_of (api_add_node "node4" three_nodes_hello).

Definition abc : bytes := encode_utf8 "abc".

Definition abc_id : string :=
  "ba7816bf8f01cfea414140de5dae2223b00361a396177a9cb410ff61f20015ad".

(** [hello] and [abc] both stored on the three nodes. *)
Definition two_files : State :=
  state_of (store_file (H := sha256) [1; 1]%nat "abc.txt" abc three_nodes_hello).

(** * Properties *)

(** ** The unit tests of the source, and the digest *)

Example sha256_empty : hash_file (H := sha256) [] = empty_id.
Proof. vm_compute; reflexivity. Qed.

Example sha256_abc :
  hash_file (H := sha256) (encode_utf8 "abc")
  = "ba7816bf8f01cfea414140de5dae2223b00361a396177a9cb410ff61f20015ad".
Proof. vm_compute; reflexivity. Qed.

Example sha256_hello : hash_file (H := sha256) hello = hello_id.
Proof. vm_compute; reflexivity. Qed.

(** [test_store_file]: the three nodes all receive the payload. *)
Example test_store_file :
  store_file (H := sha256) [] "test.txt" hello three_nodes
  = Returned hello_id three_nodes_hello
      [Info_stored "test.txt" hello_id ["node1"; "node2"; "node3"]]
  ∧ (λ r, Node_get_file hello_id (obj (objs three_nodes_hello) r))
      <$> nodes three_nodes_hello
    = [Some hello; Some hello; Some hello].
Proof. split; vm_compute; reflexivity. Qed.

(** [test_retrieve_file] *)
Example test_retrieve_file :
  retrieve_file hello_id three_nodes_hello
  = Returned (Some hello) three_nodes_hello [].
Proof. vm_compute; reflexivity. Qed.

(** [test_delete_file] *)
Example test_delete_file :
  value_of (delete_file hello_id three_nodes_hello) = Some true
  ∧ value_of (retrieve_file hello_id
                (state_of (delete_file hello_id three_nodes_hello)))
    = Some None
  ∧ (λ r, Node_get_file hello_id
            (obj (objs (state_of (delete_file hello_id three_nodes_hello))) r))
      <$> nodes three_nodes_hello
    = [None; None; None].
Proof. repeat split; vm_compute; reflexivity. Qed.

(** The empty payload is stored on the three nodes and not given back. *)
Example empty_payload_lost :
  (λ r, Node_get_file empty_id (obj (objs three_nodes_empty) r))
    <$> nodes three_nodes_empty
  = [Some []; Some []; Some []]
  ∧ retrieve_file empty_id three_nodes_empty
    = Returned None three_nodes_empty [Error_not_retrievable empty_id].
Proof. split; vm_compute; reflexivity. Qed.

(** ** Objects and method calls *)

Lemma Node_store_file_id file_id data n :
  node_id (Node_store_file file_id data n) = node_id n.
Proof. reflexivity. Qed.

Lemma Node_delete_file_id file_id n :
  node_id (Node_delete_file file_id n) = node_id n.
Proof. unfold Node_delete_file. by destruct (files n !! file_id). Qed.

Lemma Node_delete_file_get file_id n :
  Node_get_file file_id (Node_delete_file file_id n) = None.
Proof.
  unfold Node_delete_file, Node_get_file.
  destruct (files n !! file_id) eqn:E; simpl; [apply lookup_delete_eq | done].
Qed.

Lemma Node_delete_file_idem file_id n :
  Node_delete_file file_id (Node_delete_file file_id n) = Node_delete_file file_id n.
Proof.
  pose proof (Node_delete_file_get file_id n) as E.
  unfold Node_get_file in E. unfold Node_delete_file at 1. by rewrite E.
Qed.

(** A method that keeps [node_id] keeps the id behind every reference. *)
Lemma call_node_id f r h r' :
  (∀ n, node_id (f n) = node_id n) →
  node_id (obj (call f r h) r') = node_id (obj h r').
Proof.
  intros Hf. unfold obj, call. rewrite !lookup_total_alt, lookup_alter.
  case_decide; [|done]. subst. destruct (h !! r'); simpl; auto.
Qed.

Lemma find_node_ext h h' ns nid :
  (∀ r, node_id (obj h' r) = node_id (obj h r)) →
  find_node h' ns nid = find_node h ns nid.
Proof.
  intros E. induction ns as [|n ns IH]; simpl; [done|].
  rewrite E, IH. done.
Qed.

Lemma find_node_elem_of h ns nid r :
  find_node h ns nid = Some r → r ∈ ns ∧ node_id (obj h r) = nid.
Proof.
  induction ns as [|n ns IH]; simpl; [done|].
  case_decide.
  - intros [= <-]. split; [left | done].
  - intros Hf. destruct (IH Hf). split; [by right | done].
Qed.

Lemma find_node_is_Some h ns r :
  r ∈ ns → is_Some (find_node h ns (node_id (obj h r))).
Proof.
  induction ns as [|n ns IH]; simpl; [by intros ?%elem_of_nil|].
  intros [->|Hin]%elem_of_cons; case_decide; eauto; done.
Qed.

(** ** random.sample *)

Lemma draw_from_elem_of {A} draws (pool : list A) k x :
  x ∈ draw_from draws pool k → x ∈ pool.
Proof.
  revert draws pool. induction k as [|k IH]; intros draws pool; simpl.
  - by intros ?%elem_of_nil.
  - destruct (pool !! _) as [y|] eqn:E; [|by intros ?%elem_of_nil].
    intros [->|Hin]%elem_of_cons.
    + by eapply list_elem_of_lookup_2.
    + eapply list_elem_of_delete_inv, IH, Hin.
Qed.

Lemma draw_from_length {A} draws (pool : list A) k :
  (k ≤ length pool)%nat → length (draw_from draws pool k) = k.
Proof.
  revert draws pool. induction k as [|k IH]; intros draws pool Hk; simpl; [done|].
  destruct (lookup_lt_is_Some_2 pool (hd 0%nat draws `mod` length pool)%nat)
    as [y E].
  { apply Nat.mod_upper_bound. lia. }
  rewrite E. simpl. f_equal. apply IH.
  rewrite length_delete by eauto. lia.
Qed.

(** The sample takes each position at most once: it is a rearrangement of
    part of the pool. *)
Lemma draw_from_submseteq {A} draws (pool : list A) k :
  draw_from draws pool k ⊆+ pool.
Proof.
  revert draws pool. induction k as [|k IH]; intros draws pool; simpl.
  - apply submseteq_nil_l.
  - destruct (pool !! _) as [y|] eqn:E; [|apply submseteq_nil_l].
    trans (y :: delete (hd 0%nat draws `mod` length pool)%nat pool).
    + apply submseteq_skip, IH.
    + apply Permutation_submseteq. symmetry. by apply delete_Permutation.
Qed.

(** Every rearrangement of part of the pool is the sample of some draws. *)
Lemma draw_from_complete {A} (pool sel : list A) :
  sel ⊆+ pool → ∃ draws, draw_from draws pool (length sel) = sel.
Proof.
  revert pool. induction sel as [|x sel IH]; intros pool Hsub.
  - by exists [].
  - assert (x ∈ pool) as [j Hj]%list_elem_of_lookup_1.
    { eapply elem_of_submseteq; [left | exact Hsub]. }
    destruct (IH (delete j pool)) as [draws Hdraws].
    { apply submseteq_cons_l in Hsub as (pool' & Hperm & Hsub).
      rewrite (delete_Permutation pool j x Hj) in Hperm.
      apply Permutation_cons_inv in Hperm. by rewrite Hperm. }
    exists (j :: draws). simpl.
    rewrite Nat.mod_small by by eapply lookup_lt_Some.
    by rewrite Hj, Hdraws.
Qed.

Lemma random_sample_elem_of {A} draws (population sel : list A) k x :
  random_sample draws population k = Some sel → x ∈ sel → x ∈ population.
Proof.
  unfold random_sample. case_decide; [|done].
  intros [= <-]. apply draw_from_elem_of.
Qed.

Lemma random_sample_length {A} draws (population sel : list A) k :
  random_sample draws population k = Some sel → Z.of_nat (length sel) = k.
Proof.
  unfold random_sample. case_decide; [|done].
  intros [= <-]. rewrite draw_from_length by lia. lia.
Qed.

(** [random_sample] returns exactly the arrangements of [k] elements taken
    at distinct positions of the population. *)
Lemma random_sample_sound {A} draws (population sel : list A) k :
  random_sample draws population k = Some sel →
  sel ⊆+ population ∧ Z.of_nat (length sel) = k.
Proof.
  intros E. split; [|by eapply random_sample_length].
  unfold random_sample in E. case_decide; [|done].
  injection E as <-. apply draw_from_submseteq.
Qed.

Lemma random_sample_complete {A} (population sel : list A) :
  sel ⊆+ population →
  ∃ draws, random_sample draws population (Z.of_nat (length sel)) = Some sel.
Proof.
  intros Hsub. destruct (draw_from_complete _ _ Hsub) as [draws E].
  exists draws. unfold random_sample.
  rewrite decide_True by (apply submseteq_length in Hsub; lia).
  by rewrite Nat2Z.id, E.
Qed.

Lemma random_sample_None {A} draws (population : list A) k :
  Z.of_nat (length population) < k → random_sample draws population k = None.
Proof. intros Hk. unfold random_sample. case_decide; [lia | done]. Qed.

Lemma random_sample_is_Some {A} draws (population : list A) k :
  0 ≤ k ≤ Z.of_nat (length population) →
  is_Some (random_sample draws population k).
Proof. intros Hk. unfold random_sample. case_decide; [eauto | lia]. Qed.

(** ** The two loops over node objects *)

Lemma Node_store_file_idem file_id data n :
  Node_store_file file_id data (Node_store_file file_id data n)
  = Node_store_file file_id data n.
Proof. unfold Node_store_file. simpl. by rewrite insert_insert_eq. Qed.

(** [store_loop] writes the objects selected and no others. *)
Lemma store_loop_lookup file_id data selected h r :
  store_loop file_id data selected h !! r
  = if decide (r ∈ selected)
    then Node_store_file file_id data <$> h !! r
    else h !! r.
Proof.
  unfold store_loop. revert h.
  induction selected as [|n sel IH]; intros h; cbn [foldl].
  - by rewrite decide_False by apply not_elem_of_nil.
  - rewrite IH. unfold call. rewrite lookup_alter.
    destruct (decide (n = r)) as [->|Hne].
    + rewrite (decide_True (P := r ∈ r :: sel)) by left.
      case_decide; [|done].
      destruct (h !! r); simpl; [|done]. by rewrite Node_store_file_idem.
    + case_decide as E.
      * by rewrite (decide_True (P := r ∈ n :: sel)) by by right.
      * rewrite (decide_False (P := r ∈ n :: sel)); [done|].
        intros [?|?]%elem_of_cons; [congruence | done].
Qed.

Lemma store_loop_node_id file_id data selected h r :
  node_id (obj (store_loop file_id data selected h) r) = node_id (obj h r).
Proof.
  unfold obj. rewrite !lookup_total_alt, store_loop_lookup.
  case_decide; [|done]. by destruct (h !! r).
Qed.

(** [delete_loop] deletes from the objects resolved and no others. *)
Lemma delete_loop_lookup ns file_id nids h r :
  delete_loop ns file_id nids h !! r
  = if decide (r ∈ resolved h ns nids)
    then Node_delete_file file_id <$> h !! r
    else h !! r.
Proof.
  unfold resolved. revert h.
  induction nids as [|nid nids IH]; intros h; cbn [delete_loop omap list_omap].
  - by rewrite decide_False by apply not_elem_of_nil.
  - destruct (find_node h ns nid) as [n|] eqn:F; [|apply IH].
    rewrite IH.
    assert (∀ x, find_node (call (Node_delete_file file_id) n h) ns x
                 = find_node h ns x) as Hf.
    { intros x. apply find_node_ext. intros r'.
      apply call_node_id, Node_delete_file_id. }
    rewrite (list_omap_ext _ (find_node h ns) nids nids)
      by (apply Forall2_same_length_lookup_2; [done|]; intros; simplify_eq; apply Hf).
    unfold call. rewrite lookup_alter.
    destruct (decide (n = r)) as [->|Hne].
    + rewrite (decide_True (P := r ∈ r :: _)) by left.
      case_decide; [|done].
      destruct (h !! r); simpl; [|done]. by rewrite Node_delete_file_idem.
    + case_decide as E.
      * by rewrite (decide_True (P := r ∈ n :: _)) by by right.
      * rewrite (decide_False (P := r ∈ n :: _)); [done|].
        intros [?|?]%elem_of_cons; [congruence | done].
Qed.

Lemma delete_loop_node_id ns file_id nids h r :
  node_id (obj (delete_loop ns file_id nids h) r) = node_id (obj h r).
Proof.
  unfold obj. rewrite !lookup_total_alt, delete_loop_lookup.
  case_decide; [|done]. destruct (h !! r); simpl; [|done].
  apply Node_delete_file_id.
Qed.

(** ** store_file *)

(** C1 (as the code has it): with fewer registered nodes than the
    replication factor, storing a payload whose identifier has no record
    fails with the [ValueError] that [random.sample] raises, which
    [store_file] does not catch; the code has no error of its own for too
    few nodes.  The state it leaves (directory, registry, every node's
    files) is the state before the call. *)
Theorem store_file_too_few_nodes `{Digest} draws filename data st :
  Z.of_nat (length (nodes st)) < num_replicas st →
  file_map st !! hash_file data = None →
  store_file draws filename data st = Raised ValueError st [].
Proof.
  intros Hk Hnone. unfold store_file. rewrite Hnone.
  by rewrite random_sample_None.
Qed.

Lemma store_file_too_few_nodes_witness :
  Z.of_nat (length (nodes two_nodes)) < num_replicas two_nodes
  ∧ file_map two_nodes !! hash_file (H := sha256) hello = None
  ∧ store_file (H := sha256) [] "test.txt" hello two_nodes
    = Raised ValueError two_nodes [].
Proof.
  split; [vm_compute; reflexivity|].
  split; [vm_compute; reflexivity|].
  apply (store_file_too_few_nodes (H := sha256)); vm_compute; reflexivity.
Defined.

(** C1 fails as stated: on a storage system with replication factor 3 and
    no node yet, the store of [hello] does not end in an
    insufficient-replicas failure; what escapes [store_file], and the route
    [/store] after it, is the [ValueError] of the sampling call. *)
Lemma store_file_raises_value_error :
  nodes (init 3) = []
  ∧ num_replicas (init 3) = 3
  ∧ file_map (init 3) !! hash_file (H := sha256) hello = None
  ∧ store_file (H := sha256) [] "test.txt" hello (init 3)
    = Raised ValueError (init 3) []
  ∧ route_store_file (H := sha256) [] "test.txt" "Hello World" (init 3)
    = RouteRaised (Propagated ValueError) (init 3) [].
Proof. repeat split; vm_compute; reflexivity. Qed.

(** C4: when a store of payload [P] returns, a second store of [P] returns
    the same identifier and leaves the state exactly as the first call
    left it: no node is written, no replica added, the record untouched. *)
Theorem store_file_twice `{Digest} draws1 draws2 filename1 filename2 P st
    file_id st1 log1 :
  store_file draws1 filename1 P st = Returned file_id st1 log1 →
  store_file draws2 filename2 P st1
  = Returned file_id st1 [Info_already_exists filename2 file_id].
Proof.
  unfold store_file.
  destruct (file_map st !! hash_file P) as [e|] eqn:E.
  - intros [= <- <- _]. by rewrite E.
  - destruct (random_sample _ _ _) as [sel|]; [|done].
    intros [= <- <- _]. simpl. by rewrite lookup_insert_eq.
Qed.

Lemma store_file_twice_witness :
  store_file (H := sha256) [] "test.txt" hello three_nodes
  = Returned hello_id three_nodes_hello
      [Info_stored "test.txt" hello_id ["node1"; "node2"; "node3"]]
  ∧ store_file (H := sha256) [2%nat] "again.txt" hello three_nodes_hello
    = Returned hello_id three_nodes_hello
        [Info_already_exists "again.txt" hello_id].
Proof.
  assert (store_file (H := sha256) [] "test.txt" hello three_nodes
          = Returned hello_id three_nodes_hello
              [Info_stored "test.txt" hello_id ["node1"; "node2"; "node3"]])
    as E by (vm_compute; reflexivity).
  split; [exact E|].
  exact (store_file_twice (H := sha256) [] [2%nat] "test.txt" "again.txt"
           hello three_nodes hello_id three_nodes_hello _ E).
Defined.

(** ** add_node *)

(** C5 (as the code has it): [add_node] appends the node to the registry
    whatever its id: the registry is the old one followed by the node, and
    objects, directory and replication factor are unchanged.  When another
    registered node already carries the id of the node added, the ids in
    the registry are no longer distinct. *)
Theorem add_node_appends node st :
  ∃ st',
    add_node node st
    = Returned tt st' [Info_node_added (node_id (obj (objs st) node))]
    ∧ nodes st' = nodes st ++ [node]
    ∧ objs st' = objs st
    ∧ file_map st' = file_map st
    ∧ num_replicas st' = num_replicas st
    ∧ ∀ r, r ∈ nodes st → r ≠ node →
           node_id (obj (objs st) r) = node_id (obj (objs st) node) →
           ¬ distinct_ids st'.
Proof.
  eexists. split; [reflexivity|]. simpl. repeat split.
  intros r Hr Hne Hid Hd.
  pose proof (Hd r) as H1. pose proof (Hd node) as H2. simpl in H1, H2.
  rewrite Hid in H1.
  rewrite H1 in H2 by (apply elem_of_app; by left).
  assert (Some r = Some node) as [= ?]; [|done].
  apply H2, elem_of_app. right. left.
Qed.

(** C5 fails as stated: with [node1] registered, adding another node named
    [node1] changes the registry, which then holds the id twice. *)
Lemma add_node_duplicate_id :
  (λ r, node_id (obj (objs one_node) r)) <$> nodes one_node = ["node1"]
  ∧ (λ r, node_id (obj (objs twins) r)) <$> nodes twins = ["node1"; "node1"]
  ∧ nodes (state_of (api_add_node "node1" one_node)) ≠ nodes one_node.
Proof. repeat split; try (vm_compute; reflexivity). vm_compute. discriminate. Qed.

(** The route creates the object it registers, so it never rejects an id
    either. *)
Lemma api_add_node_appends nid st :
  api_add_node nid st
  = Returned tt
      (mkState (alloc nid (objs st)) (nodes st ++ [new_ref (objs st)])
         (file_map st) (num_replicas st))
      [Info_node_added nid].
Proof.
  unfold api_add_node, add_node, alloc, obj. simpl.
  by rewrite lookup_total_insert_eq.
Qed.

(** ** retrieve_file *)

Lemma retrieve_file_state file_id st : state_of (retrieve_file file_id st) = st.
Proof.
  unfold retrieve_file. destruct (file_map st !! file_id); [|done].
  by destruct (retrieve_loop _ _ _).
Qed.

(** C10: [retrieve_file] always returns and leaves the state -- registry,
    directory and every node's files -- as it was. *)
Theorem retrieve_file_read_only file_id st :
  ∃ v log, retrieve_file file_id st = Returned v st log.
Proof.
  unfold retrieve_file. destruct (file_map st !! file_id); [|eauto].
  destruct (retrieve_loop _ _ _); eauto.
Qed.

(** C6: after a [delete_file] that returned [True], [retrieve_file] on the
    same identifier takes the not-found exit: it returns [None] and logs
    that the identifier was not found. *)
Theorem delete_then_retrieve file_id st st' log :
  delete_file file_id st = Returned true st' log →
  retrieve_file file_id st' = Returned None st' [Error_not_found file_id].
Proof.
  unfold delete_file. destruct (file_map st !! file_id); [|done].
  intros [= <- _]. unfold retrieve_file. simpl. by rewrite lookup_delete_eq.
Qed.

Lemma delete_then_retrieve_witness :
  (∃ log, delete_file hello_id three_nodes_hello
          = Returned true (state_of (delete_file hello_id three_nodes_hello)) log)
  ∧ retrieve_file hello_id (state_of (delete_file hello_id three_nodes_hello))
    = Returned None (state_of (delete_file hello_id three_nodes_hello))
        [Error_not_found hello_id].
Proof.
  assert (delete_file hello_id three_nodes_hello
          = Returned true (state_of (delete_file hello_id three_nodes_hello))
              [Info_deleted hello_id]) as E by (vm_compute; reflexivity).
  split; [eauto|].
  exact (delete_then_retrieve hello_id three_nodes_hello _ _ E).
Defined.

(** ** The loop of retrieve_file *)

Lemma truthy_spec data : truthy data = true ↔ data ≠ [].
Proof. by destruct data. Qed.

(** What the loop returns was read from a node the registry resolves a
    listed id to, and is not empty. *)
Lemma retrieve_loop_Some st file_id nids data :
  retrieve_loop st file_id nids = Some data →
  data ≠ [] ∧ ∃ nid r,
    nid ∈ nids ∧ find_node (objs st) (nodes st) nid = Some r
    ∧ Node_get_file file_id (obj (objs st) r) = Some data.
Proof.
  induction nids as [|nid nids IH]; simpl; [done|].
  destruct (find_node _ _ nid) as [r|] eqn:F.
  - destruct (Node_get_file _ _) as [d|] eqn:G.
    + destruct (truthy d) eqn:T.
      * intros [= ->]. split; [by apply truthy_spec|].
        exists nid, r. split; [left | done].
      * intros [? (nid' & r' & ? & ?)]%IH. split; [done|].
        exists nid', r'. split; [by right | done].
    + intros [? (nid' & r' & ? & ?)]%IH. split; [done|].
      exists nid', r'. split; [by right | done].
  - intros [? (nid' & r' & ? & ?)]%IH. split; [done|].
    exists nid', r'. split; [by right | done].
Qed.

(** The loop finds nothing when every node it resolves holds nothing, or
    the empty payload, under the identifier. *)
Lemma retrieve_loop_None st file_id nids :
  (∀ nid r data,
     nid ∈ nids → find_node (objs st) (nodes st) nid = Some r →
     Node_get_file file_id (obj (objs st) r) = Some data → data = []) →
  retrieve_loop st file_id nids = None.
Proof.
  intros Hall. destruct (retrieve_loop st file_id nids) as [d|] eqn:E; [|done].
  apply retrieve_loop_Some in E as [Hne (nid & r & Hin & F & G)].
  by specialize (Hall _ _ _ Hin F G).
Qed.

(** The loop returns [data] when some resolved node holds it and no
    resolved node holds a different non-empty payload. *)
Lemma retrieve_loop_agree st file_id nids data :
  data ≠ [] →
  (∃ nid r, nid ∈ nids ∧ find_node (objs st) (nodes st) nid = Some r
            ∧ Node_get_file file_id (obj (objs st) r) = Some data) →
  (∀ nid r data',
     nid ∈ nids → find_node (objs st) (nodes st) nid = Some r →
     Node_get_file file_id (obj (objs st) r) = Some data' →
     data' = [] ∨ data' = data) →
  retrieve_loop st file_id nids = Some data.
Proof.
  intros Hne (nid0 & r0 & Hin0 & F0 & G0) Hall.
  induction nids as [|nid nids IH]; [by apply elem_of_nil in Hin0|].
  simpl. destruct (find_node _ _ nid) as [r|] eqn:F.
  - destruct (Node_get_file file_id (obj (objs st) r)) as [d|] eqn:G.
    + assert (d = [] ∨ d = data) as [->| ->]
        by (apply (Hall nid r d); [left | done | done]).
      * simpl. apply IH.
        -- apply elem_of_cons in Hin0 as [->|]; [|done]. congruence.
        -- intros ??? ?. apply Hall. by right.
      * apply truthy_spec in Hne. by rewrite Hne.
    + apply IH.
      * apply elem_of_cons in Hin0 as [->|]; [|done]. congruence.
      * intros ??? ?. apply Hall. by right.
  - apply IH.
    + apply elem_of_cons in Hin0 as [->|]; [|done]. congruence.
    + intros ??? ?. apply Hall. by right.
Qed.

(** C2 (as the code has it): on an identifier with no record
    [retrieve_file] returns [None] and logs "not found"; on an identifier
    with a record none of whose listed ids resolves to a registered node
    holding a non-empty payload it returns [None] and logs "not
    retrievable".  The caller receives the same value, [None], from both;
    only the logged message tells them apart. *)
Theorem retrieve_file_failures st id1 id2 e :
  file_map st !! id1 = None →
  file_map st !! id2 = Some e →
  (∀ nid r data,
     nid ∈ entry_nodes e → find_node (objs st) (nodes st) nid = Some r →
     Node_get_file id2 (obj (objs st) r) = Some data → data = []) →
  retrieve_file id1 st = Returned None st [Error_not_found id1]
  ∧ retrieve_file id2 st = Returned None st [Error_not_retrievable id2]
  ∧ value_of (retrieve_file id1 st) = value_of (retrieve_file id2 st)
  ∧ log_of (retrieve_file id1 st) ≠ log_of (retrieve_file id2 st).
Proof.
  intros H1 H2 Hall.
  assert (retrieve_file id1 st = Returned None st [Error_not_found id1]) as E1.
  { unfold retrieve_file. by rewrite H1. }
  assert (retrieve_file id2 st = Returned None st [Error_not_retrievable id2])
    as E2.
  { unfold retrieve_file. rewrite H2. by rewrite retrieve_loop_None. }
  rewrite E1, E2. done.
Qed.

Lemma retrieve_file_failures_witness :
  retrieve_file empty_id all_departed
  = Returned None all_departed [Error_not_found empty_id]
  ∧ retrieve_file hello_id all_departed
    = Returned None all_departed [Error_not_retrievable hello_id]
  ∧ value_of (retrieve_file empty_id all_departed)
    = value_of (retrieve_file hello_id all_departed)
  ∧ log_of (retrieve_file empty_id all_departed)
    ≠ log_of (retrieve_file hello_id all_departed).
Proof.
  apply (retrieve_file_failures all_departed empty_id hello_id
           (mkEntry "test.txt" ["node1"; "node2"; "node3"])).
  - vm_compute; reflexivity.
  - vm_compute; reflexivity.
  - intros nid r data _ F. by vm_compute in F.
Defined.

(** C2 fails as stated: with [hello] stored and its three nodes gone from
    the registry, retrieving [hello]'s identifier (a record, no replica
    left) and retrieving an identifier never stored hand the caller the
    same value. *)
Lemma retrieve_file_failures_alike :
  file_map all_departed !! empty_id = None
  ∧ file_map all_departed !! hello_id
    = Some (mkEntry "test.txt" ["node1"; "node2"; "node3"])
  ∧ nodes all_departed = []
  ∧ value_of (retrieve_file empty_id all_departed) = Some None
  ∧ value_of (retrieve_file hello_id all_departed) = Some None.
Proof. repeat split; vm_compute; reflexivity. Qed.

(** ** What the loops leave in a node *)

Lemma store_loop_get_selected file_id data selected h r :
  r ∈ selected → is_Some (h !! r) →
  Node_get_file file_id (obj (store_loop file_id data selected h) r) = Some data.
Proof.
  intros Hin [n Hn]. unfold obj.
  rewrite lookup_total_alt, store_loop_lookup, decide_True, Hn by done.
  simpl. unfold Node_get_file. simpl. apply lookup_insert_eq.
Qed.

Lemma store_loop_get_inv file_id data selected h r fid d :
  Node_get_file fid (obj (store_loop file_id data selected h) r) = Some d →
  (fid = file_id ∧ d = data ∧ r ∈ selected)
  ∨ Node_get_file fid (obj h r) = Some d.
Proof.
  unfold obj. rewrite !lookup_total_alt, store_loop_lookup.
  case_decide as Hin; [|by right].
  destruct (h !! r) as [n|]; simpl; [|by right].
  unfold Node_get_file. simpl. rewrite lookup_insert.
  case_decide; [|by right]. intros [= <-]. by left.
Qed.

Lemma delete_loop_get_resolved ns file_id nids h r :
  r ∈ resolved h ns nids →
  Node_get_file file_id (obj (delete_loop ns file_id nids h) r) = None.
Proof.
  intros Hin. unfold obj.
  rewrite lookup_total_alt, delete_loop_lookup, decide_True by done.
  destruct (h !! r) as [n|]; simpl; [apply Node_delete_file_get | done].
Qed.

Lemma delete_loop_get_inv ns file_id nids h r fid d :
  Node_get_file fid (obj (delete_loop ns file_id nids h) r) = Some d →
  Node_get_file fid (obj h r) = Some d.
Proof.
  unfold obj. rewrite !lookup_total_alt, delete_loop_lookup.
  case_decide as Hin; [|done].
  destruct (h !! r) as [n|]; simpl; [|done].
  unfold Node_delete_file, Node_get_file.
  destruct (files n !! file_id); simpl; [|done].
  rewrite lookup_delete. by case_decide.
Qed.

(** ** delete_file *)

(** C7 (as the code has it): on an identifier with a record, [delete_file]
    returns [True]; it calls [Node.delete_file] on exactly the objects that
    the listed ids resolve to -- for each listed id the first registered
    node carrying it, an id that no registered node carries being skipped
    -- leaves every other object alone, and removes the record.  Afterwards
    no node that a listed id resolves to holds anything under the
    identifier; when no two registered nodes share an id, that is every
    registered node whose id is listed. *)
Theorem delete_file_removes file_id st e :
  file_map st !! file_id = Some e →
  ∃ st',
    delete_file file_id st = Returned true st' [Info_deleted file_id]
    ∧ nodes st' = nodes st
    ∧ file_map st' = delete file_id (file_map st)
    ∧ (∀ r, objs st' !! r
            = if decide (r ∈ resolved (objs st) (nodes st) (entry_nodes e))
              then Node_delete_file file_id <$> objs st !! r
              else objs st !! r)
    ∧ (∀ nid r,
         nid ∈ entry_nodes e →
         find_node (objs st') (nodes st') nid = Some r →
         Node_get_file file_id (obj (objs st') r) = None)
    ∧ (distinct_ids st →
       ∀ r, r ∈ nodes st' →
            node_id (obj (objs st') r) ∈ entry_nodes e →
            Node_get_file file_id (obj (objs st') r) = None).
Proof.
  intros He. eexists. unfold delete_file. rewrite He.
  split; [reflexivity|]. simpl.
  assert (∀ nid r,
    nid ∈ entry_nodes e →
    find_node (delete_loop (nodes st) file_id (entry_nodes e) (objs st))
      (nodes st) nid = Some r →
    Node_get_file file_id
      (obj (delete_loop (nodes st) file_id (entry_nodes e) (objs st)) r) = None)
    as Hres.
  { intros nid r Hin F. apply delete_loop_get_resolved.
    apply list_elem_of_omap. exists nid. split; [done|].
    rewrite <- F. symmetry. apply find_node_ext, delete_loop_node_id. }
  repeat split; [apply delete_loop_lookup | exact Hres |].
  intros Hd r Hr Hid. eapply Hres; [exact Hid|].
  rewrite delete_loop_node_id.
  rewrite <- (Hd r Hr). apply find_node_ext, delete_loop_node_id.
Qed.

Lemma delete_file_removes_witness :
  ∃ st',
    delete_file hello_id three_nodes_hello
    = Returned true st' [Info_deleted hello_id]
    ∧ nodes st' = nodes three_nodes_hello
    ∧ file_map st' = delete hello_id (file_map three_nodes_hello)
    ∧ (∀ r, objs st' !! r
            = if decide (r ∈ resolved (objs three_nodes_hello)
                               (nodes three_nodes_hello)
                               ["node1"; "node2"; "node3"])
              then Node_delete_file hello_id <$> objs three_nodes_hello !! r
              else objs three_nodes_hello !! r)
    ∧ (∀ nid r,
         nid ∈ ["node1"; "node2"; "node3"] →
         find_node (objs st') (nodes st') nid = Some r →
         Node_get_file hello_id (obj (objs st') r) = None)
    ∧ (distinct_ids three_nodes_hello →
       ∀ r, r ∈ nodes st' →
            node_id (obj (objs st') r) ∈ ["node1"; "node2"; "node3"] →
            Node_get_file hello_id (obj (objs st') r) = None).
Proof.
  apply (delete_file_removes hello_id three_nodes_hello
           (mkEntry "test.txt" ["node1"; "node2"; "node3"])).
  vm_compute; reflexivity.
Defined.

(** C7 fails as stated: with two registered nodes named [node1] and the
    payload placed on the second, [delete_file] returns [True] and removes
    the record, yet the second node -- registered, its id the one listed --
    still holds the payload. *)
Lemma delete_file_leaves_twin :
  file_map twins_hello !! hello_id = Some (mkEntry "test.txt" ["node1"])
  ∧ delete_file hello_id twins_hello
    = Returned true twins_deleted [Info_deleted hello_id]
  ∧ file_map twins_deleted !! hello_id = None
  ∧ nodes twins_deleted = [0; 1]%nat
  ∧ node_id (obj (objs twins_deleted) 1%nat) = "node1"
  ∧ Node_get_file hello_id (obj (objs twins_deleted) 1%nat) = Some hello.
Proof. repeat split; vm_compute; reflexivity. Qed.

(** ** The empty payload *)

(** C9: storing the empty payload succeeds: it writes the empty bytes to
    the nodes selected and creates the record.  A retrieve of its
    identifier then returns [None] through the not-retrievable exit,
    although the selected nodes are all registered and all hold the
    (empty) payload: [if data:] takes empty bytes for no bytes.  (The
    state before the store has no record for the identifier, enough nodes,
    and no registered node with a non-empty payload under it.) *)
Theorem store_empty_then_retrieve `{Digest} draws filename st :
  file_map st !! hash_file [] = None →
  0 ≤ num_replicas st ≤ Z.of_nat (length (nodes st)) →
  registry_allocated st →
  (∀ r data,
     r ∈ nodes st →
     Node_get_file (hash_file []) (obj (objs st) r) = Some data → data = []) →
  ∃ selected st',
    random_sample draws (nodes st) (num_replicas st) = Some selected
    ∧ store_file draws filename [] st
      = Returned (hash_file []) st'
          [Info_stored filename (hash_file [])
             ((λ r, node_id (obj (objs st) r)) <$> selected)]
    ∧ file_map st' !! hash_file []
      = Some (mkEntry filename ((λ r, node_id (obj (objs st) r)) <$> selected))
    ∧ nodes st' = nodes st
    ∧ (∀ r, r ∈ selected →
            r ∈ nodes st'
            ∧ Node_get_file (hash_file []) (obj (objs st') r) = Some [])
    ∧ retrieve_file (hash_file []) st'
      = Returned None st' [Error_not_retrievable (hash_file [])].
Proof.
  intros Hnone Hk Halloc Hold.
  destruct (random_sample_is_Some draws (nodes st) _ Hk) as [sel Hsel].
  exists sel. eexists. split; [exact Hsel|].
  unfold store_file. rewrite Hnone, Hsel. simpl.
  assert ((λ node, node_id (obj (store_loop (hash_file []) [] sel (objs st)) node))
            <$> sel
          = (λ r, node_id (obj (objs st) r)) <$> sel) as ->.
  { apply list_fmap_ext. intros _ r _. apply store_loop_node_id. }
  split; [reflexivity|]. simpl.
  split; [apply lookup_insert_eq|].
  split; [done|].
  split.
  - intros r Hr.
    assert (r ∈ nodes st) by eauto using random_sample_elem_of.
    split; [done|]. apply store_loop_get_selected; auto.
  - unfold retrieve_file. simpl. rewrite lookup_insert_eq. simpl.
    rewrite retrieve_loop_None; [done|]. simpl.
    intros nid r data _ [Hr _]%find_node_elem_of G.
    apply store_loop_get_inv in G as [(_ & -> & _)|G]; [done|].
    by eapply Hold.
Qed.

Lemma store_empty_then_retrieve_witness :
  ∃ selected st',
    random_sample [] (nodes three_nodes) (num_replicas three_nodes)
    = Some selected
    ∧ store_file (H := sha256) [] "empty.txt" [] three_nodes
      = Returned (hash_file (H := sha256) []) st'
          [Info_stored "empty.txt" (hash_file (H := sha256) [])
             ((λ r, node_id (obj (objs three_nodes) r)) <$> selected)]
    ∧ file_map st' !! hash_file (H := sha256) []
      = Some (mkEntry "empty.txt"
                ((λ r, node_id (obj (objs three_nodes) r)) <$> selected))
    ∧ nodes st' = nodes three_nodes
    ∧ (∀ r, r ∈ selected →
            r ∈ nodes st'
            ∧ Node_get_file (hash_file (H := sha256) []) (obj (objs st') r)
              = Some [])
    ∧ retrieve_file (hash_file (H := sha256) []) st'
      = Returned None st' [Error_not_retrievable (hash_file (H := sha256) [])].
Proof.
  apply (store_empty_then_retrieve (H := sha256) [] "empty.txt" three_nodes).
  - vm_compute; reflexivity.
  - vm_compute. split; discriminate.
  - intros r Hr. vm_compute in Hr.
    repeat (apply elem_of_cons in Hr as [->|Hr]; [vm_compute; eauto|]).
    by apply elem_of_nil in Hr.
  - intros r data Hr. vm_compute in Hr.
    repeat (apply elem_of_cons in Hr as [->|Hr]; [by vm_compute|]).
    by apply elem_of_nil in Hr.
Defined.

(** ** Sequences of calls *)

Lemma run_snoc `{Digest} ops op st : run (ops ++ [op]) st = step op (run ops st).
Proof. unfold run. by rewrite foldl_app. Qed.

Lemma prefix_snoc_inv {A} (l' l : list A) x :
  l' `prefix_of` l ++ [x] → l' `prefix_of` l ∨ l' = l ++ [x].
Proof.
  intros [k Hk]. destruct k as [|y k _] using rev_ind.
  - right. by rewrite app_nil_r in Hk.
  - left. rewrite app_assoc in Hk. apply app_inj_tail in Hk as [-> _].
    by exists k.
Qed.

(** A record present after a call was there before it, or the call is the
    [store_file] that created it from a sample of the registry. *)
Lemma step_file_map `{Digest} op st file_id e :
  file_map (step op st) !! file_id = Some e →
  file_map st !! file_id = Some e
  ∨ ∃ draws filename data selected,
      op = Store_file draws filename data
      ∧ hash_file data = file_id
      ∧ file_map st !! file_id = None
      ∧ random_sample draws (nodes st) (num_replicas st) = Some selected
      ∧ e = mkEntry filename ((λ r, node_id (obj (objs st) r)) <$> selected).
Proof.
  destruct op as [nid|node|nid|draws filename data|fid|fid]; simpl.
  - by left.
  - destruct (objs st !! node); by left.
  - by left.
  - unfold store_file.
    destruct (file_map st !! hash_file data) as [e'|] eqn:E; [by left|].
    destruct (random_sample draws (nodes st) (num_replicas st)) as [sel|] eqn:S;
      [|by left].
    simpl. rewrite lookup_insert. case_decide as Hid; [|by left].
    intros [= <-]. right. exists draws, filename, data, sel.
    repeat split; [done | by rewrite <- Hid | done |].
    f_equal. apply list_fmap_ext. intros _ r _. apply store_loop_node_id.
  - rewrite retrieve_file_state. by left.
  - unfold delete_file. destruct (file_map st !! fid); [|by left].
    simpl. rewrite lookup_delete. case_decide; [done | by left].
Qed.

(** [remove_node] does not touch the directory. *)
Lemma remove_node_file_map nid st :
  file_map (state_of (remove_node nid st)) = file_map st.
Proof. reflexivity. Qed.

(** C8: in every state reached from the initial one by a sequence of
    calls, each record was created by a [store_file] of that sequence, at
    a moment when every id it lists was the id of a registered node; from
    then on the record stayed as created through every later call, and a
    [remove_node] leaves the directory as it is. *)
Theorem record_nodes_were_registered `{Digest} k ops file_id e :
  file_map (run ops (init k)) !! file_id = Some e →
  (∃ ops1 draws filename data ops2,
     ops = ops1 ++ Store_file draws filename data :: ops2
     ∧ hash_file data = file_id
     ∧ file_map (run ops1 (init k)) !! file_id = None
     ∧ (∀ nid, nid ∈ entry_nodes e →
         ∃ r, r ∈ nodes (run ops1 (init k))
              ∧ node_id (obj (objs (run ops1 (init k))) r) = nid)
     ∧ (∀ ops', ops' `prefix_of` ops2 →
         file_map (run (ops1 ++ Store_file draws filename data :: ops') (init k))
           !! file_id = Some e))
  ∧ (∀ nid, file_map (state_of (remove_node nid (run ops (init k))))
            = file_map (run ops (init k))).
Proof.
  intros He. split; [|intros; apply remove_node_file_map].
  revert He. induction ops as [|op ops IH] using rev_ind; [done|].
  rewrite run_snoc. intros He.
  destruct (step_file_map _ _ _ _ He)
    as [Hold|(draws & filename & data & sel & -> & Hid & Hnone & Hsel & ->)].
  - destruct (IH Hold) as (ops1 & draws & filename & data & ops2
                           & -> & Hid & Hnone & Hreg & Hkeep).
    exists ops1, draws, filename, data, (ops2 ++ [op]).
    split; [by rewrite <- app_assoc|].
    repeat split; [done.. |].
    intros ops' [Hp| ->]%prefix_snoc_inv; [by apply Hkeep|].
    by rewrite app_comm_cons, app_assoc, run_snoc.
  - exists ops, draws, filename, data, [].
    repeat split; [done.. | |].
    + intros nid (r & -> & Hr)%list_elem_of_fmap. simpl.
      exists r. split; [|done]. by eapply random_sample_elem_of.
    + intros ops' ->%prefix_nil_inv. by rewrite run_snoc.
Qed.

Lemma record_nodes_were_registered_witness :
  (∃ ops1 draws filename data ops2,
     first_departure = ops1 ++ Store_file draws filename data :: ops2
     ∧ hash_file (H := sha256) data = hello_id
     ∧ file_map (run (H := sha256) ops1 (init 3)) !! hello_id = None
     ∧ (∀ nid, nid ∈ ["node1"; "node2"; "node3"] →
         ∃ r, r ∈ nodes (run (H := sha256) ops1 (init 3))
              ∧ node_id (obj (objs (run (H := sha256) ops1 (init 3))) r) = nid)
     ∧ (∀ ops', ops' `prefix_of` ops2 →
         file_map (run (H := sha256)
                     (ops1 ++ Store_file draws filename data :: ops') (init 3))
           !! hello_id
         = Some (mkEntry "test.txt" ["node1"; "node2"; "node3"])))
  ∧ (∀ nid,
       file_map (state_of (remove_node nid
                   (run (H := sha256) first_departure (init 3))))
       = file_map (run (H := sha256) first_departure (init 3))).
Proof.
  apply (record_nodes_were_registered (H := sha256) 3 first_departure hello_id
           (mkEntry "test.txt" ["node1"; "node2"; "node3"])).
  vm_compute; reflexivity.
Defined.

(** ** What the nodes hold *)

(** In a state reached from the initial one, whatever a node holds under
    an identifier was the payload of a [store_file] of the sequence, and
    the identifier is its digest. *)
Lemma held_was_stored `{Digest} k ops r fid d :
  Node_get_file fid (obj (objs (run ops (init k))) r) = Some d →
  hash_file d = fid ∧ ∃ draws filename, Store_file draws filename d ∈ ops.
Proof.
  revert r fid d. induction ops as [|op ops IH] using rev_ind; intros r fid d.
  { simpl. unfold obj, Node_get_file.
    by rewrite lookup_total_alt, lookup_empty. }
  rewrite run_snoc. intros G.
  assert (Node_get_file fid (obj (objs (run ops (init k))) r) = Some d →
          hash_file d = fid
          ∧ ∃ draws filename, Store_file draws filename d ∈ ops ++ [op])
    as Hold.
  { intros [? (draws & filename & ?)]%IH. split; [done|].
    exists draws, filename. apply elem_of_app. by left. }
  destruct op as [nid|node|nid|draws filename data|fid'|fid']; simpl in G.
  - unfold alloc, obj in G. rewrite lookup_total_insert in G.
    case_decide; [|by apply Hold].
    unfold Node_get_file in G. simpl in G. by rewrite lookup_empty in G.
  - destruct (objs (run ops (init k)) !! node); by apply Hold.
  - by apply Hold.
  - unfold store_file in G.
    destruct (file_map (run ops (init k)) !! hash_file data); [by apply Hold|].
    destruct (random_sample _ _ _) as [sel|]; [|by apply Hold].
    simpl in G.
    apply store_loop_get_inv in G as [(-> & -> & _)|G]; [|by apply Hold].
    split; [done|]. exists draws, filename. apply elem_of_app. right. left.
  - rewrite retrieve_file_state in G. by apply Hold.
  - unfold delete_file in G.
    destruct (file_map (run ops (init k)) !! fid'); [|by apply Hold].
    simpl in G. apply delete_loop_get_inv in G. by apply Hold.
Qed.

(** In a state reached from the initial one, every registered reference
    denotes an object. *)
Lemma run_registry_allocated `{Digest} k ops : registry_allocated (run ops (init k)).
Proof.
  induction ops as [|op ops IH] using rev_ind.
  { intros r Hr. by apply elem_of_nil in Hr. }
  rewrite run_snoc. unfold registry_allocated in *.
  destruct op as [nid|node|nid|draws filename data|fid|fid]; simpl.
  - intros r Hr. unfold alloc. rewrite lookup_insert.
    case_decide; [eauto | by apply IH].
  - destruct (objs (run ops (init k)) !! node) eqn:E; [|done]. simpl.
    intros r [Hr| ->%list_elem_of_singleton]%elem_of_app; [by apply IH | eauto].
  - intros r [_ Hr]%list_elem_of_filter. by apply IH.
  - unfold store_file.
    destruct (file_map (run ops (init k)) !! hash_file data); [done|].
    destruct (random_sample _ _ _) as [sel|]; [|done]. simpl.
    intros r Hr. rewrite store_loop_lookup.
    case_decide; [|by apply IH]. by apply fmap_is_Some, IH.
  - by rewrite retrieve_file_state.
  - unfold delete_file.
    destruct (file_map (run ops (init k)) !! fid); [|done]. simpl.
    intros r Hr. rewrite delete_loop_lookup.
    case_decide; [|by apply IH]. by apply fmap_is_Some, IH.
Qed.

(** ** Retrieving what was stored *)

(** C3 (as the code has it): take a state reached from the initial one by
    calls among which no payload other than [P] was stored under the digest
    [file_id], with [P] not empty and a record for [file_id].  As soon as
    one listed id resolves -- to the first registered node that carries it
    -- to a node holding [P] under [file_id], [retrieve_file] returns [P].
    In particular, when no two registered nodes share an id, it is enough
    that one registered node whose id is listed holds [P]. *)
Theorem retrieve_returns_stored `{Digest} k ops file_id e P :
  file_map (run ops (init k)) !! file_id = Some e →
  P ≠ [] →
  collision_free ops file_id P →
  ((∃ nid r,
      nid ∈ entry_nodes e
      ∧ find_node (objs (run ops (init k))) (nodes (run ops (init k))) nid
        = Some r
      ∧ Node_get_file file_id (obj (objs (run ops (init k))) r) = Some P) →
   retrieve_file file_id (run ops (init k))
   = Returned (Some P) (run ops (init k)) [])
  ∧ (distinct_ids (run ops (init k)) →
     (∃ r,
        r ∈ nodes (run ops (init k))
        ∧ node_id (obj (objs (run ops (init k))) r) ∈ entry_nodes e
        ∧ Node_get_file file_id (obj (objs (run ops (init k))) r) = Some P) →
     retrieve_file file_id (run ops (init k))
     = Returned (Some P) (run ops (init k)) []).
Proof.
  intros He Hne Hfree.
  assert ((∃ nid r,
      nid ∈ entry_nodes e
      ∧ find_node (objs (run ops (init k))) (nodes (run ops (init k))) nid
        = Some r
      ∧ Node_get_file file_id (obj (objs (run ops (init k))) r) = Some P) →
   retrieve_file file_id (run ops (init k))
   = Returned (Some P) (run ops (init k)) []) as Hres.
  { intros Hex. unfold retrieve_file. rewrite He.
    rewrite (retrieve_loop_agree _ _ _ P); [done.. |].
    intros nid r d _ _ G. right.
    apply held_was_stored in G as [Hid (draws & filename & Hin)].
    by eapply Hfree. }
  split; [exact Hres|].
  intros Hd (r & Hr & Hid & G). apply Hres.
  exists (node_id (obj (objs (run ops (init k))) r)), r. auto.
Qed.

Lemma retrieve_returns_stored_witness :
  retrieve_file hello_id (run (H := sha256) first_departure (init 3))
  = Returned (Some hello) (run (H := sha256) first_departure (init 3)) [].
Proof.
  refine (proj1 (retrieve_returns_stored (H := sha256) 3 first_departure
                   hello_id (mkEntry "test.txt" ["node1"; "node2"; "node3"])
                   hello _ _ _) _).
  - vm_compute; reflexivity.
  - discriminate.
  - intros draws filename data' Hin _. unfold first_departure in Hin.
    repeat (apply elem_of_cons in Hin as [Heq|Hin]; [by simplify_eq|]).
    by apply elem_of_nil in Hin.
  - exists "node2", 1%nat. repeat split; [|vm_compute; reflexivity..].
    right. left.
Defined.

(** C3 fails as stated: with two registered nodes named [node1] and
    [hello] placed on the second, the node of the placement is registered
    and holds [hello], yet [retrieve_file] asks the first and returns
    [None]. *)
Lemma retrieve_misses_twin :
  random_sample [1%nat] (nodes twins) (num_replicas twins) = Some [1%nat]
  ∧ store_file (H := sha256) [1%nat] "test.txt" hello twins
    = Returned hello_id twins_hello [Info_stored "test.txt" hello_id ["node1"]]
  ∧ nodes twins_hello = [0; 1]%nat
  ∧ Node_get_file hello_id (obj (objs twins_hello) 1%nat) = Some hello
  ∧ retrieve_file hello_id twins_hello
    = Returned None twins_hello [Error_not_retrievable hello_id].
Proof. repeat split; vm_compute; reflexivity. Qed.

(** ** Round trip *)

(** A non-empty payload stored on at least one node, in a registry whose
    references all denote objects and whose ids are pairwise distinct, is
    what [retrieve_file] returns right after. *)
Theorem store_then_retrieve `{Digest} draws filename P st :
  file_map st !! hash_file P = None →
  P ≠ [] →
  1 ≤ num_replicas st ≤ Z.of_nat (length (nodes st)) →
  registry_allocated st →
  distinct_ids st →
  ∃ st' log,
    store_file draws filename P st = Returned (hash_file P) st' log
    ∧ retrieve_file (hash_file P) st' = Returned (Some P) st' [].
Proof.
  intros Hnone Hne Hk Halloc Hd.
  destruct (random_sample_is_Some draws (nodes st) (num_replicas st))
    as [sel Hsel]; [lia|].
  unfold store_file. rewrite Hnone, Hsel. simpl. do 2 eexists.
  split; [reflexivity|].
  unfold retrieve_file. simpl. rewrite lookup_insert_eq. simpl.
  set (h := store_loop (hash_file P) P sel (objs st)).
  assert (∀ r, r ∈ sel → r ∈ nodes st) as Hin
    by eauto using random_sample_elem_of.
  assert (∀ r, r ∈ sel → find_node h (nodes st) (node_id (obj h r)) = Some r)
    as Hfind.
  { intros r Hr. unfold h. rewrite store_loop_node_id.
    rewrite <- (Hd r (Hin r Hr)). apply find_node_ext.
    intros. apply store_loop_node_id. }
  rewrite (retrieve_loop_agree _ _ _ P); [done | done | |]; simpl.
  - destruct sel as [|r0 sel'].
    { apply random_sample_length in Hsel. simpl in Hsel. lia. }
    exists (node_id (obj h r0)), r0.
    split; [left|]. split; [apply Hfind; left|].
    apply store_loop_get_selected; [left|]. apply Halloc, Hin. left.
  - intros nid r d (r0 & -> & Hr0)%list_elem_of_fmap F G.
    rewrite (Hfind r0 Hr0) in F. injection F as <-. right.
    unfold h in G. rewrite store_loop_get_selected in G; auto. congruence.
Qed.

Lemma store_then_retrieve_witness :
  ∃ st' log,
    store_file (H := sha256) [2; 0]%nat "test.txt" hello three_nodes
    = Returned (hash_file (H := sha256) hello) st' log
    ∧ retrieve_file (hash_file (H := sha256) hello) st'
      = Returned (Some hello) st' [].
Proof.
  apply (store_then_retrieve (H := sha256) [2; 0]%nat "test.txt" hello
           three_nodes).
  - vm_compute; reflexivity.
  - discriminate.
  - vm_compute. split; discriminate.
  - intros r Hr. vm_compute in Hr.
    repeat (apply elem_of_cons in Hr as [->|Hr]; [vm_compute; eauto|]).
    by apply elem_of_nil in Hr.
  - intros r Hr. vm_compute in Hr.
    repeat (apply elem_of_cons in Hr as [->|Hr]; [vm_compute; reflexivity|]).
    by apply elem_of_nil in Hr.
Defined.

(** * Further properties of the code *)

(** ** class Node: the local key-value contract *)

(** [Node.store_file] installs the payload under the key, replacing what
    was there; [Node.delete_file] removes the key and is a no-op when the
    key is missing; neither touches another key or the node's id. *)
Theorem Node_files_contract file_id other data data' n :
  Node_get_file file_id (Node_store_file file_id data n) = Some data
  ∧ Node_get_file file_id
      (Node_store_file file_id data (Node_store_file file_id data' n))
    = Some data
  ∧ Node_get_file file_id (Node_delete_file file_id n) = None
  ∧ Node_get_file file_id
      (Node_delete_file file_id (Node_store_file file_id data n)) = None
  ∧ (Node_get_file file_id n = None → Node_delete_file file_id n = n)
  ∧ (other ≠ file_id →
     Node_get_file other (Node_store_file file_id data n)
     = Node_get_file other n
     ∧ Node_get_file other (Node_delete_file file_id n)
       = Node_get_file other n)
  ∧ node_id (Node_store_file file_id data n) = node_id n
  ∧ node_id (Node_delete_file file_id n) = node_id n.
Proof.
  repeat split.
  - apply lookup_insert_eq.
  - apply lookup_insert_eq.
  - apply Node_delete_file_get.
  - apply Node_delete_file_get.
  - unfold Node_get_file, Node_delete_file. by intros ->.
  - unfold Node_get_file. simpl. by apply lookup_insert_ne.
  - unfold Node_get_file, Node_delete_file.
    destruct (files n !! file_id); simpl; [|done]. by apply lookup_delete_ne.
  - apply Node_delete_file_id.
Qed.

(** ** remove_node *)

Lemma find_node_None h ns nid :
  find_node h ns nid = None ↔ ∀ r, r ∈ ns → node_id (obj h r) ≠ nid.
Proof.
  induction ns as [|n ns IH]; simpl.
  - split; [by intros _ r ?%elem_of_nil | done].
  - case_decide as E.
    + split; [done|]. intros Hall. destruct (Hall n); [left | done].
    + rewrite IH. split.
      * intros Hall r [->|?]%elem_of_cons; auto.
      * intros Hall r ?. apply Hall. by right.
Qed.

(** Looking an id up after another id was filtered out of the list. *)
Lemma find_node_filter_ne h ns nid nid' :
  nid' ≠ nid →
  find_node h (filter (λ node, node_id (obj h node) ≠ nid) ns) nid'
  = find_node h ns nid'.
Proof.
  intros Hne. induction ns as [|n ns IH]; [done|].
  destruct (decide (node_id (obj h n) = nid)) as [E|E].
  - rewrite filter_cons_False by (intros ?; done).
    rewrite IH. simpl. rewrite decide_False; [done | congruence].
  - rewrite filter_cons_True by done. simpl. by rewrite IH.
Qed.

(** [remove_node] takes every node carrying the id out of the registry --
    all of them when several carry it -- and keeps the others in their
    order; objects, directory and replication factor stay; the id then
    resolves to no node, and removing an id that no registered node
    carries changes nothing. *)
Theorem remove_node_removes_all nid st :
  ∃ st',
    remove_node nid st = Returned tt st' [Info_node_removed nid]
    ∧ objs st' = objs st
    ∧ file_map st' = file_map st
    ∧ num_replicas st' = num_replicas st
    ∧ (∀ r, r ∈ nodes st' ↔ r ∈ nodes st ∧ node_id (obj (objs st) r) ≠ nid)
    ∧ nodes st' `sublist_of` nodes st
    ∧ find_node (objs st') (nodes st') nid = None
    ∧ (find_node (objs st) (nodes st) nid = None → nodes st' = nodes st).
Proof.
  eexists. split; [reflexivity|]. simpl.
  split; [done|]. split; [done|]. split; [done|].
  split; [|split; [|split]].
  - intros r. rewrite list_elem_of_filter. tauto.
  - apply sublist_filter.
  - apply find_node_None. by intros r [? _]%list_elem_of_filter.
  - rewrite find_node_None. intros Hall.
    induction (nodes st) as [|n ns IH]; [done|].
    rewrite filter_cons_True by (apply Hall; left).
    f_equal. apply IH. intros r ?. apply Hall. by right.
Qed.

(** ** What leaves a retrieve unchanged *)

Lemma retrieve_loop_probe st file_id nids :
  retrieve_loop st file_id nids
  = match nids with
    | [] => None
    | nid :: rest =>
        match probe st file_id nid with
        | Some data => Some data
        | None => retrieve_loop st file_id rest
        end
    end.
Proof.
  destruct nids as [|nid rest]; [done|]. simpl. unfold probe.
  destruct (find_node _ _ nid); [|done].
  destruct (Node_get_file _ _) as [d|]; [|done]. by destruct (truthy d).
Qed.

Lemma retrieve_loop_sim st st' file_id nids :
  (∀ nid, nid ∈ nids → probe st' file_id nid = probe st file_id nid) →
  retrieve_loop st' file_id nids = retrieve_loop st file_id nids.
Proof.
  induction nids as [|nid nids IH]; intros Hp; [done|].
  rewrite (retrieve_loop_probe st), (retrieve_loop_probe st').
  rewrite Hp by left. rewrite IH; [done|]. intros ??. apply Hp. by right.
Qed.

(** Two states with the same record for [file_id] whose listed ids probe
    alike give the same answer, through the same exit. *)
Lemma retrieve_file_sim st st' file_id :
  file_map st' !! file_id = file_map st !! file_id →
  (∀ e nid, file_map st !! file_id = Some e → nid ∈ entry_nodes e →
            probe st' file_id nid = probe st file_id nid) →
  ∃ v log,
    retrieve_file file_id st = Returned v st log
    ∧ retrieve_file file_id st' = Returned v st' log.
Proof.
  intros Hm Hp. unfold retrieve_file. rewrite Hm.
  destruct (file_map st !! file_id) as [e|] eqn:E; [|eauto].
  rewrite (retrieve_loop_sim st st') by eauto.
  destruct (retrieve_loop st file_id (entry_nodes e)); eauto.
Qed.

Lemma probe_ext st st' file_id nid :
  nodes st' = nodes st →
  (∀ r, node_id (obj (objs st') r) = node_id (obj (objs st) r)) →
  (∀ r, Node_get_file file_id (obj (objs st') r)
        = Node_get_file file_id (obj (objs st) r)) →
  probe st' file_id nid = probe st file_id nid.
Proof.
  intros Hn Hid Hget. unfold probe.
  rewrite Hn, (find_node_ext (objs st) (objs st')) by done.
  destruct (find_node _ _ nid); [|done]. by rewrite Hget.
Qed.

Lemma store_loop_get_ne file_id data selected h r fid :
  fid ≠ file_id →
  Node_get_file fid (obj (store_loop file_id data selected h) r)
  = Node_get_file fid (obj h r).
Proof.
  intros Hne. unfold obj. rewrite !lookup_total_alt, store_loop_lookup.
  case_decide; [|done]. destruct (h !! r); simpl; [|done].
  unfold Node_get_file. simpl. by apply lookup_insert_ne.
Qed.

Lemma delete_loop_get_ne ns file_id nids h r fid :
  fid ≠ file_id →
  Node_get_file fid (obj (delete_loop ns file_id nids h) r)
  = Node_get_file fid (obj h r).
Proof.
  intros Hne. unfold obj. rewrite !lookup_total_alt, delete_loop_lookup.
  case_decide; [|done]. destruct (h !! r) as [n|]; simpl; [|done].
  unfold Node_get_file, Node_delete_file.
  destruct (files n !! file_id); simpl; [|done]. by apply lookup_delete_ne.
Qed.

(** Whatever [store_file] does with a payload, a retrieve of any other
    identifier gives afterwards what it gave before. *)
Theorem store_file_keeps_other_retrieve `{Digest} draws filename data fid st :
  fid ≠ hash_file data →
  ∃ v log,
    retrieve_file fid st = Returned v st log
    ∧ retrieve_file fid (state_of (store_file draws filename data st))
      = Returned v (state_of (store_file draws filename data st)) log.
Proof.
  intros Hne. apply retrieve_file_sim.
  - unfold store_file. destruct (file_map st !! hash_file data); [done|].
    destruct (random_sample _ _ _); [|done]. simpl.
    by apply lookup_insert_ne.
  - intros e nid _ _. unfold store_file.
    destruct (file_map st !! hash_file data); [done|].
    destruct (random_sample _ _ _); [|done]. simpl.
    apply probe_ext; simpl; [done | apply store_loop_node_id |].
    intros r. by apply store_loop_get_ne.
Qed.

Lemma store_file_keeps_other_retrieve_witness :
  ∃ v log,
    retrieve_file hello_id three_nodes_hello = Returned v three_nodes_hello log
    ∧ retrieve_file hello_id two_files = Returned v two_files log.
Proof.
  apply (store_file_keeps_other_retrieve (H := sha256) [1; 1]%nat "abc.txt"
           abc hello_id three_nodes_hello).
  vm_compute. discriminate.
Defined.

(** [delete_file] on one identifier leaves a retrieve of any other
    identifier as it was. *)
Theorem delete_file_keeps_other_retrieve file_id fid st :
  fid ≠ file_id →
  ∃ v log,
    retrieve_file fid st = Returned v st log
    ∧ retrieve_file fid (state_of (delete_file file_id st))
      = Returned v (state_of (delete_file file_id st)) log.
Proof.
  intros Hne. apply retrieve_file_sim.
  - unfold delete_file. destruct (file_map st !! file_id); [|done]. simpl.
    by apply lookup_delete_ne.
  - intros e nid _ _. unfold delete_file.
    destruct (file_map st !! file_id); [|done]. simpl.
    apply probe_ext; simpl; [done | apply delete_loop_node_id |].
    intros r. by apply delete_loop_get_ne.
Qed.

Lemma delete_file_keeps_other_retrieve_witness :
  ∃ v log,
    retrieve_file hello_id two_files = Returned v two_files log
    ∧ retrieve_file hello_id (state_of (delete_file abc_id two_files))
      = Returned v (state_of (delete_file abc_id two_files)) log.
Proof.
  apply (delete_file_keeps_other_retrieve abc_id hello_id two_files).
  vm_compute. discriminate.
Defined.

(** [remove_node] of an id that the record does not list leaves the
    retrieve as it was. *)
Theorem remove_node_keeps_retrieve nid fid st :
  (∀ e, file_map st !! fid = Some e → nid ∉ entry_nodes e) →
  ∃ v log,
    retrieve_file fid st = Returned v st log
    ∧ retrieve_file fid (state_of (remove_node nid st))
      = Returned v (state_of (remove_node nid st)) log.
Proof.
  intros Hnot. apply retrieve_file_sim; [done|].
  intros e nid' He Hin. unfold probe. simpl.
  rewrite find_node_filter_ne; [done|].
  intros ->. by apply (Hnot e).
Qed.

Lemma remove_node_keeps_retrieve_witness :
  ∃ v log,
    retrieve_file hello_id four_nodes_hello = Returned v four_nodes_hello log
    ∧ retrieve_file hello_id (state_of (remove_node "node4" four_nodes_hello))
      = Returned v (state_of (remove_node "node4" four_nodes_hello)) log.
Proof.
  apply (remove_node_keeps_retrieve "node4" hello_id four_nodes_hello).
  intros e He. vm_compute in He. injection He as <-. simpl.
  intros Hin.
  repeat (apply elem_of_cons in Hin as [Heq|Hin]; [discriminate|]).
  by apply elem_of_nil in Hin.
Defined.

(** ** The route /add_node and new objects *)

Lemma new_ref_fresh (h : gmap nat Node) : h !! new_ref h = None.
Proof. apply not_elem_of_dom. unfold new_ref. apply is_fresh. Qed.

Lemma alloc_lookup_ne nid (h : gmap nat Node) r :
  is_Some (h !! r) → alloc nid h !! r = h !! r.
Proof.
  intros [n Hn]. unfold alloc. apply lookup_insert_ne.
  intros E. rewrite <- E, new_ref_fresh in Hn. done.
Qed.

Lemma alloc_obj_ne nid (h : gmap nat Node) r :
  is_Some (h !! r) → obj (alloc nid h) r = obj h r.
Proof.
  intros Hr. unfold obj. by rewrite !lookup_total_alt, alloc_lookup_ne.
Qed.

Lemma alloc_obj_new nid (h : gmap nat Node) :
  obj (alloc nid h) (new_ref h) = Node_init nid.
Proof. unfold obj, alloc. apply lookup_total_insert_eq. Qed.

Lemma find_node_app h l1 l2 nid :
  find_node h (l1 ++ l2) nid
  = match find_node h l1 nid with
    | Some r => Some r
    | None => find_node h l2 nid
    end.
Proof.
  induction l1 as [|n l1 IH]; simpl; [done|]. by case_decide.
Qed.

Lemma find_node_ext_in h h' ns nid :
  (∀ r, r ∈ ns → node_id (obj h' r) = node_id (obj h r)) →
  find_node h' ns nid = find_node h ns nid.
Proof.
  induction ns as [|n ns IH]; intros E; simpl; [done|].
  rewrite E by left. rewrite IH; [done|]. intros ??. apply E. by right.
Qed.

(** The route [/add_node] registers a new object with no files and leaves
    the objects that exist alone, so no retrieve changes its answer: a
    node added under the id of a departed one brings none of its data
    back. *)
Theorem api_add_node_keeps_retrieve nid fid st :
  registry_allocated st →
  (∀ file_id,
     Node_get_file file_id
       (obj (objs (state_of (api_add_node nid st))) (new_ref (objs st)))
     = None)
  ∧ (∀ r, is_Some (objs st !! r) →
          objs (state_of (api_add_node nid st)) !! r = objs st !! r)
  ∧ ∃ v log,
      retrieve_file fid st = Returned v st log
      ∧ retrieve_file fid (state_of (api_add_node nid st))
        = Returned v (state_of (api_add_node nid st)) log.
Proof.
  intros Halloc. simpl.
  split; [|split].
  - intros file_id. by rewrite alloc_obj_new.
  - intros r Hr. by apply alloc_lookup_ne.
  - apply retrieve_file_sim; [done|].
    intros e nid' _ _. unfold probe. simpl.
    rewrite find_node_app.
    rewrite (find_node_ext_in (objs st)) by (intros; by apply f_equal, alloc_obj_ne, Halloc).
    destruct (find_node (objs st) (nodes st) nid') as [r|] eqn:F.
    + apply find_node_elem_of in F as [Hr _].
      by rewrite alloc_obj_ne by by apply Halloc.
    + simpl. case_decide; [|done]. by rewrite alloc_obj_new.
Qed.

Lemma api_add_node_keeps_retrieve_witness :
  (∀ file_id,
     Node_get_file file_id
       (obj (objs (state_of (api_add_node "node1" all_departed)))
          (new_ref (objs all_departed)))
     = None)
  ∧ (∀ r, is_Some (objs all_departed !! r) →
          objs (state_of (api_add_node "node1" all_departed)) !! r
          = objs all_departed !! r)
  ∧ ∃ v log,
      retrieve_file hello_id all_departed = Returned v all_departed log
      ∧ retrieve_file hello_id (state_of (api_add_node "node1" all_departed))
        = Returned v (state_of (api_add_node "node1" all_departed)) log.
Proof.
  apply (api_add_node_keeps_retrieve "node1" hello_id all_departed).
  intros r Hr. vm_compute in Hr. by apply elem_of_nil in Hr.
Defined.

(** ** store_file: where the replicas go *)

(** A store that finds no record and enough nodes returns the digest,
    records the filename and the ids of the nodes sampled -- as many as the
    replication factor, at distinct positions of the registry -- and
    writes the payload to those nodes under the digest.  It leaves the
    registry, every other record, every node not sampled and every other
    key of the nodes sampled as they were. *)
Theorem store_file_places_replicas `{Digest} draws filename data st :
  file_map st !! hash_file data = None →
  0 ≤ num_replicas st ≤ Z.of_nat (length (nodes st)) →
  registry_allocated st →
  ∃ selected st',
    store_file draws filename data st
    = Returned (hash_file data) st'
        [Info_stored filename (hash_file data)
           ((λ r, node_id (obj (objs st) r)) <$> selected)]
    ∧ selected ⊆+ nodes st
    ∧ Z.of_nat (length selected) = num_replicas st
    ∧ file_map st'
      = <[hash_file data :=
            mkEntry filename ((λ r, node_id (obj (objs st) r)) <$> selected)]>
          (file_map st)
    ∧ nodes st' = nodes st
    ∧ num_replicas st' = num_replicas st
    ∧ (∀ r, r ∈ selected →
            Node_get_file (hash_file data) (obj (objs st') r) = Some data)
    ∧ (∀ r, r ∉ selected → objs st' !! r = objs st !! r)
    ∧ (∀ r fid, fid ≠ hash_file data →
                Node_get_file fid (obj (objs st') r)
                = Node_get_file fid (obj (objs st) r))
    ∧ (∀ r, node_id (obj (objs st') r) = node_id (obj (objs st) r)).
Proof.
  intros Hnone Hk Halloc.
  destruct (random_sample_is_Some draws (nodes st) _ Hk) as [sel Hsel].
  destruct (random_sample_sound _ _ _ _ Hsel) as [Hsub Hlen].
  exists sel. eexists. unfold store_file. rewrite Hnone, Hsel. simpl.
  assert ((λ node, node_id (obj (store_loop (hash_file data) data sel (objs st))
                              node)) <$> sel
          = (λ r, node_id (obj (objs st) r)) <$> sel) as ->.
  { apply list_fmap_ext. intros _ r _. apply store_loop_node_id. }
  split; [reflexivity|]. simpl.
  repeat split; try done.
  - intros r Hr. apply store_loop_get_selected; [done|].
    apply Halloc. eapply elem_of_submseteq; eauto.
  - intros r Hr. by rewrite store_loop_lookup, decide_False.
  - intros r fid Hne. by apply store_loop_get_ne.
  - intros r. apply store_loop_node_id.
Qed.

Lemma store_file_places_replicas_witness :
  ∃ selected st',
    store_file (H := sha256) [1; 1]%nat "abc.txt" abc three_nodes_hello
    = Returned (hash_file (H := sha256) abc) st'
        [Info_stored "abc.txt" (hash_file (H := sha256) abc)
           ((λ r, node_id (obj (objs three_nodes_hello) r)) <$> selected)]
    ∧ selected ⊆+ nodes three_nodes_hello
    ∧ Z.of_nat (length selected) = num_replicas three_nodes_hello
    ∧ file_map st'
      = <[hash_file (H := sha256) abc :=
            mkEntry "abc.txt"
              ((λ r, node_id (obj (objs three_nodes_hello) r)) <$> selected)]>
          (file_map three_nodes_hello)
    ∧ nodes st' = nodes three_nodes_hello
    ∧ num_replicas st' = num_replicas three_nodes_hello
    ∧ (∀ r, r ∈ selected →
            Node_get_file (hash_file (H := sha256) abc) (obj (objs st') r)
            = Some abc)
    ∧ (∀ r, r ∉ selected → objs st' !! r = objs three_nodes_hello !! r)
    ∧ (∀ r fid, fid ≠ hash_file (H := sha256) abc →
                Node_get_file fid (obj (objs st') r)
                = Node_get_file fid (obj (objs three_nodes_hello) r))
    ∧ (∀ r, node_id (obj (objs st') r)
            = node_id (obj (objs three_nodes_hello) r)).
Proof.
  apply (store_file_places_replicas (H := sha256) [1; 1]%nat "abc.txt" abc
           three_nodes_hello).
  - vm_compute; reflexivity.
  - vm_compute. split; discriminate.
  - intros r Hr. vm_compute in Hr.
    repeat (apply elem_of_cons in Hr as [->|Hr]; [vm_compute; eauto|]).
    by apply elem_of_nil in Hr.
Defined.

(** ** delete_file: repeated, and followed by a new store *)

(** [delete_file] on an identifier with no record returns [False] and
    changes nothing; so of two deletes in a row the second returns
    [False] and leaves the state of the first. *)
Theorem delete_file_twice file_id st st' log :
  delete_file file_id st = Returned true st' log →
  delete_file file_id st' = Returned false st' [Error_not_found file_id].
Proof.
  unfold delete_file. destruct (file_map st !! file_id); [|done].
  intros [= <- _]. simpl. by rewrite lookup_delete_eq.
Qed.

Lemma delete_file_twice_witness :
  delete_file hello_id (state_of (delete_file hello_id three_nodes_hello))
  = Returned false (state_of (delete_file hello_id three_nodes_hello))
      [Error_not_found hello_id].
Proof.
  apply (delete_file_twice hello_id three_nodes_hello _ [Info_deleted hello_id]).
  vm_compute; reflexivity.
Defined.

(** Deleting is not final: after a delete, a store of the same payload
    does not take the already-exists exit; it samples the registry anew
    and creates a record under the same identifier with the new
    filename. *)
Theorem delete_then_store `{Digest} draws filename data st st1 log :
  delete_file (hash_file data) st = Returned true st1 log →
  0 ≤ num_replicas st ≤ Z.of_nat (length (nodes st)) →
  ∃ selected st2,
    random_sample draws (nodes st) (num_replicas st) = Some selected
    ∧ store_file draws filename data st1
      = Returned (hash_file data) st2
          [Info_stored filename (hash_file data)
             ((λ r, node_id (obj (objs st) r)) <$> selected)]
    ∧ file_map st2 !! hash_file data
      = Some (mkEntry filename ((λ r, node_id (obj (objs st) r)) <$> selected))
    ∧ (∀ r, r ∈ selected → is_Some (objs st !! r) →
            Node_get_file (hash_file data) (obj (objs st2) r) = Some data).
Proof.
  unfold delete_file.
  destruct (file_map st !! hash_file data) as [e|] eqn:E; [|done].
  intros [= <- _] Hk.
  destruct (random_sample_is_Some draws (nodes st) _ Hk) as [sel Hsel].
  exists sel. eexists. split; [done|].
  unfold store_file. simpl. rewrite lookup_delete_eq, Hsel. simpl.
  assert ((λ node, node_id (obj (store_loop (hash_file data) data sel
             (delete_loop (nodes st) (hash_file data) (entry_nodes e) (objs st)))
             node)) <$> sel
          = (λ r, node_id (obj (objs st) r)) <$> sel) as ->.
  { apply list_fmap_ext. intros _ r _.
    by rewrite store_loop_node_id, delete_loop_node_id. }
  split; [reflexivity|]. simpl.
  split; [apply lookup_insert_eq|].
  intros r Hr [n Hn]. apply store_loop_get_selected; [done|].
  rewrite delete_loop_lookup, Hn. case_decide; eauto.
Qed.

Lemma delete_then_store_witness :
  ∃ selected st2,
    random_sample [2]%nat (nodes three_nodes_hello)
      (num_replicas three_nodes_hello) = Some selected
    ∧ store_file (H := sha256) [2]%nat "again.txt" hello
        (state_of (delete_file hello_id three_nodes_hello))
      = Returned (hash_file (H := sha256) hello) st2
          [Info_stored "again.txt" (hash_file (H := sha256) hello)
             ((λ r, node_id (obj (objs three_nodes_hello) r)) <$> selected)]
    ∧ file_map st2 !! hash_file (H := sha256) hello
      = Some (mkEntry "again.txt"
                ((λ r, node_id (obj (objs three_nodes_hello) r)) <$> selected))
    ∧ (∀ r, r ∈ selected → is_Some (objs three_nodes_hello !! r) →
            Node_get_file (hash_file (H := sha256) hello) (obj (objs st2) r)
            = Some hello).
Proof.
  apply (delete_then_store (H := sha256) [2]%nat "again.txt" hello
           three_nodes_hello (state_of (delete_file hello_id three_nodes_hello))
           [Info_deleted hello_id]).
  - vm_compute; reflexivity.
  - vm_compute. split; discriminate.
Defined.

(** ** Departed nodes *)

(** After [remove_node], a store that creates a record places no replica
    on a node carrying the removed id: the record does not list the id
    and no such node is written. *)
Theorem store_after_remove_node `{Digest} nid draws filename data st fid st' log :
  file_map st !! hash_file data = None →
  store_file draws filename data (state_of (remove_node nid st))
  = Returned fid st' log →
  ∃ e, file_map st' !! fid = Some e
       ∧ (nid ∉ entry_nodes e)
       ∧ ∀ r, node_id (obj (objs st) r) = nid → objs st' !! r = objs st !! r.
Proof.
  intros Hnone. unfold store_file. simpl. rewrite Hnone.
  destruct (random_sample _ _ _) as [sel|] eqn:Hsel; [|done].
  intros [= <- <- _]. simpl. eexists. split; [apply lookup_insert_eq|].
  assert (∀ r, r ∈ sel → node_id (obj (objs st) r) ≠ nid) as Hne.
  { intros r Hr. eapply random_sample_elem_of in Hr; [|exact Hsel].
    by apply list_elem_of_filter in Hr as [? _]. }
  simpl. split.
  - intros (r & -> & Hr)%list_elem_of_fmap.
    rewrite store_loop_node_id in Hne. by apply (Hne r).
  - intros r Hid. rewrite store_loop_lookup, decide_False; [done|].
    intros Hr. by apply (Hne r).
Qed.

Lemma store_after_remove_node_witness :
  ∃ e, file_map (state_of (store_file (H := sha256) [] "abc.txt" abc
                   (state_of (remove_node "node4" four_nodes_hello))))
         !! abc_id = Some e
       ∧ ("node4" ∉ entry_nodes e)
       ∧ ∀ r, node_id (obj (objs four_nodes_hello) r) = "node4" →
              objs (state_of (store_file (H := sha256) [] "abc.txt" abc
                      (state_of (remove_node "node4" four_nodes_hello)))) !! r
              = objs four_nodes_hello !! r.
Proof.
  eapply (store_after_remove_node (H := sha256) "node4" [] "abc.txt" abc
            four_nodes_hello abc_id).
  - vm_compute; reflexivity.
  - vm_compute; reflexivity.
Defined.

Lemma step_nodes `{Digest} op st r :
  r ∈ nodes (step op st) → r ∈ nodes st ∨ op = Add_node r.
Proof.
  destruct op as [nid|node|nid|draws filename data|fid|fid]; simpl.
  - by left.
  - destruct (objs st !! node); [|by left]. simpl.
    intros [?| ->%list_elem_of_singleton]%elem_of_app; [by left | by right].
  - intros [_ ?]%list_elem_of_filter. by left.
  - unfold store_file. destruct (file_map st !! hash_file data); [by left|].
    destruct (random_sample _ _ _); by left.
  - rewrite retrieve_file_state. by left.
  - unfold delete_file. destruct (file_map st !! fid); by left.
Qed.

Lemma step_objs_unregistered `{Digest} op st r :
  r ∉ nodes st → is_Some (objs st !! r) →
  objs (step op st) !! r = objs st !! r.
Proof.
  intros Hr Hsome.
  destruct op as [nid|node|nid|draws filename data|fid|fid]; simpl.
  - by apply alloc_lookup_ne.
  - by destruct (objs st !! node).
  - done.
  - unfold store_file. destruct (file_map st !! hash_file data); [done|].
    destruct (random_sample _ _ _) as [sel|] eqn:Hsel; [|done]. simpl.
    rewrite store_loop_lookup, decide_False; [done|].
    intros ?. apply Hr. by eapply random_sample_elem_of.
  - by rewrite retrieve_file_state.
  - unfold delete_file. destruct (file_map st !! fid) as [e|]; [|done]. simpl.
    rewrite delete_loop_lookup, decide_False; [done|].
    intros (nid & _ & [? _]%find_node_elem_of)%list_elem_of_omap. by apply Hr.
Qed.

(** The methods write and delete only on nodes of the registry: an object
    that is out of the registry keeps its id and its files, whatever calls
    follow, for as long as that very object is not added again.  A replica
    on a departed node is never cleaned up. *)
Theorem departed_object_untouched `{Digest} ops st r :
  r ∉ nodes st →
  is_Some (objs st !! r) →
  Add_node r ∉ ops →
  (r ∉ nodes (run ops st)) ∧ objs (run ops st) !! r = objs st !! r.
Proof.
  intros Hr Hsome. induction ops as [|op ops IH] using rev_ind; [done|].
  intros Hadd. rewrite run_snoc.
  destruct IH as [IH1 IH2].
  { intros ?. apply Hadd, elem_of_app. by left. }
  split.
  - intros [?| ->]%step_nodes; [done|].
    apply Hadd, elem_of_app. right. left.
  - rewrite step_objs_unregistered; [done.. |]. by rewrite IH2.
Qed.

Lemma departed_object_untouched_witness :
  (0%nat ∉ nodes (run (H := sha256)
                    [Delete_file hello_id; New_node "node1"; Add_node 3%nat;
                     Store_file [] "test.txt" hello]
                    (state_of (remove_node "node1" three_nodes_hello))))
  ∧ objs (run (H := sha256)
            [Delete_file hello_id; New_node "node1"; Add_node 3%nat;
             Store_file [] "test.txt" hello]
            (state_of (remove_node "node1" three_nodes_hello))) !! 0%nat
    = objs (state_of (remove_node "node1" three_nodes_hello)) !! 0%nat.
Proof.
  apply (departed_object_untouched (H := sha256)).
  - vm_compute. intros Hin.
    repeat (apply elem_of_cons in Hin as [Heq|Hin]; [discriminate|]).
    by apply elem_of_nil in Hin.
  - vm_compute; eauto.
  - intros Hin.
    repeat (apply elem_of_cons in Hin as [Heq|Hin]; [discriminate|]).
    by apply elem_of_nil in Hin.
Defined.

(** ** Invariants of the reachable states *)

Lemma step_num_replicas `{Digest} op st :
  num_replicas (step op st) = num_replicas st.
Proof.
  destruct op as [nid|node|nid|draws filename data|fid|fid]; simpl; try done.
  - by destruct (objs st !! node).
  - unfold store_file. destruct (file_map st !! hash_file data); [done|].
    by destruct (random_sample _ _ _).
  - by rewrite retrieve_file_state.
  - unfold delete_file. by destruct (file_map st !! fid).
Qed.

Lemma run_num_replicas `{Digest} ops st :
  num_replicas (run ops st) = num_replicas st.
Proof.
  induction ops as [|op ops IH] using rev_ind; [done|].
  by rewrite run_snoc, step_num_replicas.
Qed.

(** The replication factor never changes, and every record of a reachable
    state lists exactly that many node ids: no file is ever recorded with
    fewer or more replicas than the factor. *)
Theorem records_list_num_replicas `{Digest} k ops :
  num_replicas (run ops (init k)) = k
  ∧ ∀ fid e,
      file_map (run ops (init k)) !! fid = Some e →
      Z.of_nat (length (entry_nodes e)) = k.
Proof.
  split; [apply run_num_replicas|].
  induction ops as [|op ops IH] using rev_ind; [done|].
  intros fid e. rewrite run_snoc. intros He.
  destruct (step_file_map _ _ _ _ He)
    as [Hold|(draws & filename & data & sel & -> & _ & _ & Hsel & ->)];
    [by eapply IH|].
  simpl. rewrite length_fmap.
  apply random_sample_length in Hsel. by rewrite Hsel, run_num_replicas.
Qed.

(** What [retrieve_file] returns in a reachable state is never empty, has
    the identifier asked for as its digest, and was the payload of a
    [store_file] of the history. *)
Theorem retrieve_returns_what_was_stored `{Digest} k ops fid data st' log :
  retrieve_file fid (run ops (init k)) = Returned (Some data) st' log →
  data ≠ []
  ∧ hash_file data = fid
  ∧ ∃ draws filename, Store_file draws filename data ∈ ops.
Proof.
  unfold retrieve_file.
  destruct (file_map (run ops (init k)) !! fid) as [e|]; [|done].
  destruct (retrieve_loop _ _ _) as [d|] eqn:E; [|done].
  intros [= <- _ _].
  apply retrieve_loop_Some in E as [Hne (nid & r & _ & _ & G)].
  split; [done|]. by apply held_was_stored in G.
Qed.

Lemma retrieve_returns_what_was_stored_witness :
  hello ≠ []
  ∧ hash_file (H := sha256) hello = hello_id
  ∧ ∃ draws filename, Store_file draws filename hello ∈ first_departure.
Proof.
  apply (retrieve_returns_what_was_stored (H := sha256) 3 first_departure
           hello_id hello (run (H := sha256) first_departure (init 3)) []).
  vm_compute; reflexivity.
Defined.

(** ** Deletes commute *)

Lemma Node_delete_file_comm fid1 fid2 n :
  Node_delete_file fid1 (Node_delete_file fid2 n)
  = Node_delete_file fid2 (Node_delete_file fid1 n).
Proof.
  destruct (decide (fid1 = fid2)) as [->|Hne]; [done|].
  unfold Node_delete_file.
  destruct (files n !! fid1) eqn:E1, (files n !! fid2) eqn:E2; simpl;
    rewrite ?lookup_delete_ne, ?E1, ?E2 by done; simpl; try done.
  by rewrite delete_delete.
Qed.

Lemma resolved_ext h h' ns nids :
  (∀ r, node_id (obj h' r) = node_id (obj h r)) →
  resolved h' ns nids = resolved h ns nids.
Proof.
  intros E. unfold resolved. apply list_omap_ext.
  apply Forall2_same_length_lookup_2; [done|].
  intros i x y ??. simplify_eq. by apply find_node_ext.
Qed.

(** Two deletes give the same state in either order. *)
Theorem delete_file_comm fid1 fid2 st :
  state_of (delete_file fid2 (state_of (delete_file fid1 st)))
  = state_of (delete_file fid1 (state_of (delete_file fid2 st))).
Proof.
  destruct (decide (fid1 = fid2)) as [->|Hne]; [done|].
  unfold delete_file.
  destruct (file_map st !! fid1) as [e1|] eqn:E1,
           (file_map st !! fid2) as [e2|] eqn:E2; simpl;
    rewrite ?lookup_delete_ne, ?E1, ?E2 by done; simpl; try done.
  f_equal; [|apply delete_delete].
  apply map_eq. intros r. rewrite !delete_loop_lookup.
  rewrite (resolved_ext (objs st)
             (delete_loop (nodes st) fid1 (entry_nodes e1) (objs st)))
    by (intros; apply delete_loop_node_id).
  rewrite (resolved_ext (objs st)
             (delete_loop (nodes st) fid2 (entry_nodes e2) (objs st)))
    by (intros; apply delete_loop_node_id).
  repeat case_decide; try done.
  rewrite <- !option_fmap_compose. apply option_fmap_ext.
  intros n. apply Node_delete_file_comm.
Qed.

(** ** The routes *)

Lemma decode_encode_utf8 text :
  well_formed_text text → decode_utf8 (encode_utf8 text) = Some text.
Proof.
  unfold well_formed_text, decode_utf8. intros ->.
  unfold encode_utf8. by rewrite String.string_of_list_byte_of_string.
Qed.

Lemma encode_utf8_nil text : encode_utf8 text = [] → text = "".
Proof.
  intros E. rewrite <- (String.string_of_list_byte_of_string text).
  unfold encode_utf8 in E. by rewrite E.
Qed.

(** The outcome of a store that finds no record and enough nodes. *)
Lemma store_file_fresh `{Digest} draws filename data st :
  file_map st !! hash_file data = None →
  0 ≤ num_replicas st ≤ Z.of_nat (length (nodes st)) →
  ∃ sel,
    random_sample draws (nodes st) (num_replicas st) = Some sel
    ∧ store_file draws filename data st
      = Returned (hash_file data)
          (mkState (store_loop (hash_file data) data sel (objs st)) (nodes st)
             (<[hash_file data :=
                  mkEntry filename ((λ r, node_id (obj (objs st) r)) <$> sel)]>
                (file_map st))
             (num_replicas st))
          [Info_stored filename (hash_file data)
             ((λ r, node_id (obj (objs st) r)) <$> sel)].
Proof.
  intros Hnone Hk.
  destruct (random_sample_is_Some draws (nodes st) _ Hk) as [sel Hsel].
  exists sel. split; [done|]. unfold store_file. rewrite Hnone, Hsel. simpl.
  assert ((λ node, node_id (obj (store_loop (hash_file data) data sel (objs st))
                              node)) <$> sel
          = (λ r, node_id (obj (objs st) r)) <$> sel) as ->; [|done].
  apply list_fmap_ext. intros _ r _. apply store_loop_node_id.
Qed.

(** Retrieving right after such a store, ids distinct and payload not
    empty. *)
Lemma retrieve_after_fresh_store file_id filename data sel st :
  data ≠ [] →
  sel ≠ [] →
  (∀ r, r ∈ sel → r ∈ nodes st) →
  registry_allocated st →
  distinct_ids st →
  retrieve_file file_id
    (mkState (store_loop file_id data sel (objs st)) (nodes st)
       (<[file_id := mkEntry filename ((λ r, node_id (obj (objs st) r)) <$> sel)]>
          (file_map st))
       (num_replicas st))
  = Returned (Some data)
      (mkState (store_loop file_id data sel (objs st)) (nodes st)
         (<[file_id := mkEntry filename ((λ r, node_id (obj (objs st) r)) <$> sel)]>
            (file_map st))
         (num_replicas st)) [].
Proof.
  intros Hne Hsel Hin Halloc Hd.
  unfold retrieve_file. simpl. rewrite lookup_insert_eq. simpl.
  set (h := store_loop file_id data sel (objs st)).
  assert (∀ r, r ∈ sel → find_node h (nodes st) (node_id (obj (objs st) r)) = Some r)
    as Hfind.
  { intros r Hr. rewrite <- (Hd r (Hin r Hr)). apply find_node_ext.
    intros. apply store_loop_node_id. }
  rewrite (retrieve_loop_agree _ _ _ data); [done | done | |]; simpl.
  - destruct sel as [|r0 sel']; [done|].
    exists (node_id (obj (objs st) r0)), r0.
    split; [left|]. split; [apply Hfind; left|].
    apply store_loop_get_selected; [left|]. apply Halloc, Hin. left.
  - intros nid r d (r0 & -> & Hr0)%list_elem_of_fmap F G.
    rewrite (Hfind r0 Hr0) in F. injection F as <-. right.
    unfold h in G. rewrite store_loop_get_selected in G; auto. congruence.
Qed.

(** The text posted to [/store] is the text that [/retrieve] serves for
    the identifier returned: for a non-empty text, at least one replica,
    distinct node ids and no earlier record, the first responds 200 with
    the digest as [file_id] and the second responds 200 with the text as
    [data]. *)
Theorem route_store_then_retrieve `{Digest} draws filename text st :
  file_map st !! hash_file (encode_utf8 text) = None →
  text ≠ "" →
  well_formed_text text →
  1 ≤ num_replicas st ≤ Z.of_nat (length (nodes st)) →
  registry_allocated st →
  distinct_ids st →
  ∃ st1 log1,
    route_store_file draws filename text st
    = Responded
        (mkResponse 200
           {["status" := "File stored";
             "file_id" := hash_file (encode_utf8 text)]})
        st1 log1
    ∧ route_retrieve_file (hash_file (encode_utf8 text)) st1
      = Responded
          (mkResponse 200 {["status" := "File retrieved"; "data" := text]})
          st1 [].
Proof.
  intros Hnone Hne Hwf Hk Halloc Hd.
  destruct (store_file_fresh draws filename (encode_utf8 text) st Hnone)
    as (sel & Hsel & Hstore); [lia|].
  do 2 eexists. unfold route_store_file. rewrite Hstore.
  split; [reflexivity|].
  unfold route_retrieve_file.
  rewrite retrieve_after_fresh_store; try done.
  - rewrite decode_encode_utf8 by done.
    destruct (encode_utf8 text) eqn:E; [|done].
    by apply encode_utf8_nil in E.
  - by intros ?%encode_utf8_nil.
  - intros ->. apply random_sample_length in Hsel. simpl in Hsel. lia.
  - intros r Hr. by eapply random_sample_elem_of.
Qed.

Lemma route_store_then_retrieve_witness :
  ∃ st1 log1,
    route_store_file (H := sha256) [1; 0; 5]%nat "test.txt" "Hello World"
      three_nodes
    = Responded
        (mkResponse 200
           {["status" := "File stored";
             "file_id" := hash_file (H := sha256) (encode_utf8 "Hello World")]})
        st1 log1
    ∧ route_retrieve_file (hash_file (H := sha256) (encode_utf8 "Hello World"))
        st1
      = Responded
          (mkResponse 200
             {["status" := "File retrieved"; "data" := "Hello World"]})
          st1 [].
Proof.
  apply (route_store_then_retrieve (H := sha256) [1; 0; 5]%nat "test.txt"
           "Hello World" three_nodes).
  - vm_compute; reflexivity.
  - discriminate.
  - vm_compute; reflexivity.
  - vm_compute. split; discriminate.
  - intros r Hr. vm_compute in Hr.
    repeat (apply elem_of_cons in Hr as [->|Hr]; [vm_compute; eauto|]).
    by apply elem_of_nil in Hr.
  - intros r Hr. vm_compute in Hr.
    repeat (apply elem_of_cons in Hr as [->|Hr]; [vm_compute; reflexivity|]).
    by apply elem_of_nil in Hr.
Defined.

(** [/delete] answers 200 once: on an identifier with a record it responds
    200 "File deleted"; repeated, it responds 404 "File not found", and so
    does [/retrieve] for that identifier. *)
Theorem route_delete_then_404 file_id st e :
  file_map st !! file_id = Some e →
  ∃ st1,
    route_delete_file file_id st
    = Responded (mkResponse 200 {["status" := "File deleted"]}) st1
        [Info_deleted file_id]
    ∧ route_delete_file file_id st1
      = Responded (mkResponse 404 {["status" := "File not found"]}) st1
          [Error_not_found file_id]
    ∧ route_retrieve_file file_id st1
      = Responded (mkResponse 404 {["status" := "File not found"]}) st1
          [Error_not_found file_id].
Proof.
  intros He. eexists. unfold route_delete_file at 1. unfold delete_file.
  rewrite He. split; [reflexivity|].
  unfold route_delete_file, route_retrieve_file, delete_file, retrieve_file.
  simpl. by rewrite lookup_delete_eq.
Qed.

Lemma route_delete_then_404_witness :
  ∃ st1,
    route_delete_file hello_id three_nodes_hello
    = Responded (mkResponse 200 {["status" := "File deleted"]}) st1
        [Info_deleted hello_id]
    ∧ route_delete_file hello_id st1
      = Responded (mkResponse 404 {["status" := "File not found"]}) st1
          [Error_not_found hello_id]
    ∧ route_retrieve_file hello_id st1
      = Responded (mkResponse 404 {["status" := "File not found"]}) st1
          [Error_not_found hello_id].
Proof.
  apply (route_delete_then_404 hello_id three_nodes_hello
           (mkEntry "test.txt" ["node1"; "node2"; "node3"])).
  vm_compute; reflexivity.
Defined.

(** [/retrieve] answers 404 "File not found" for every failure alike: an
    identifier never stored, a record none of whose nodes gives data, and
    -- since it tests [if data:] as the method does -- nothing else; it
    never propagates an exception of the storage system, and leaves the
    state as it was. *)
Theorem route_retrieve_404 file_id st :
  (∃ text log,
     route_retrieve_file file_id st
     = Responded
         (mkResponse 200 {["status" := "File retrieved"; "data" := text]})
         st log
     ∧ ∃ data, retrieve_file file_id st = Returned (Some data) st log
               ∧ decode_utf8 data = Some text)
  ∨ (∃ log,
       route_retrieve_file file_id st
       = Responded (mkResponse 404 {["status" := "File not found"]}) st log
       ∧ retrieve_file file_id st = Returned None st log)
  ∨ (∃ log data,
       route_retrieve_file file_id st = RouteRaised UnicodeDecodeError st log
       ∧ retrieve_file file_id st = Returned (Some data) st log
       ∧ decode_utf8 data = None).
Proof.
  unfold route_retrieve_file, retrieve_file.
  destruct (file_map st !! file_id) as [e|]; [|right; left; eauto].
  destruct (retrieve_loop st file_id (entry_nodes e)) as [d|] eqn:E;
    [|right; left; eauto].
  apply retrieve_loop_Some in E as [Hne _].
  apply truthy_spec in Hne. rewrite Hne.
  destruct (decode_utf8 d) as [text|] eqn:D.
  - left. exists text, []. split; [done|]. eauto.
  - right. right. exists [], d. done.
Qed.

(** An empty text posted to [/store] is accepted with 200, and [/retrieve]
    then answers 404 for the identifier returned. *)
Theorem route_store_empty_then_404 `{Digest} draws filename st :
  file_map st !! hash_file (encode_utf8 "") = None →
  0 ≤ num_replicas st ≤ Z.of_nat (length (nodes st)) →
  (∀ r data,
     r ∈ nodes st →
     Node_get_file (hash_file (encode_utf8 "")) (obj (objs st) r) = Some data →
     data = []) →
  ∃ st1 log1,
    route_store_file draws filename "" st
    = Responded
        (mkResponse 200
           {["status" := "File stored";
             "file_id" := hash_file (encode_utf8 "")]})
        st1 log1
    ∧ route_retrieve_file (hash_file (encode_utf8 "")) st1
      = Responded (mkResponse 404 {["status" := "File not found"]}) st1
          [Error_not_retrievable (hash_file (encode_utf8 ""))].
Proof.
  intros Hnone Hk Hold.
  destruct (store_file_fresh draws filename (encode_utf8 "") st Hnone Hk)
    as (sel & Hsel & Hstore).
  do 2 eexists. unfold route_store_file. rewrite Hstore.
  split; [reflexivity|].
  unfold route_retrieve_file, retrieve_file. simpl.
  rewrite lookup_insert_eq. simpl.
  rewrite retrieve_loop_None; [done|]. simpl.
  intros nid r data _ [Hr _]%find_node_elem_of G.
  apply store_loop_get_inv in G as [(_ & -> & _)|G]; [done|].
  by eapply Hold.
Qed.

Lemma route_store_empty_then_404_witness :
  ∃ st1 log1,
    route_store_file (H := sha256) [] "empty.txt" "" three_nodes
    = Responded
        (mkResponse 200
           {["status" := "File stored";
             "file_id" := hash_file (H := sha256) (encode_utf8 "")]})
        st1 log1
    ∧ route_retrieve_file (hash_file (H := sha256) (encode_utf8 "")) st1
      = Responded (mkResponse 404 {["status" := "File not found"]}) st1
          [Error_not_retrievable (hash_file (H := sha256) (encode_utf8 ""))].
Proof.
  apply (route_store_empty_then_404 (H := sha256) [] "empty.txt" three_nodes).
  - vm_compute; reflexivity.
  - vm_compute. split; discriminate.
  - intros r data Hr. vm_compute in Hr.
    repeat (apply elem_of_cons in Hr as [->|Hr]; [by vm_compute|]).
    by apply elem_of_nil in Hr.
Defined.

(** Bytes that are not UTF-8, stored through the method, make [/retrieve]
    raise. *)
Example route_retrieve_raises :
  route_retrieve_file
    (hash_file (H := sha256) [xff])
    (state_of (store_file (H := sha256) [] "raw.bin" [xff] three_nodes))
  = RouteRaised UnicodeDecodeError
      (state_of (store_file (H := sha256) [] "raw.bin" [xff] three_nodes)) [].
Proof. vm_compute; reflexivity. Qed.

(** ** The test case *)

Lemma json_first (k1 k2 v1 v2 : string) :
  ({[k1 := v1; k2 := v2]} : gmap string string) !! k1 = Some v1.
Proof. apply lookup_insert_eq. Qed.

Lemma json_second (k1 k2 v1 v2 : string) :
  k1 ≠ k2 → ({[k1 := v1; k2 := v2]} : gmap string string) !! k2 = Some v2.
Proof. intros. by rewrite lookup_insert_ne, lookup_singleton_eq. Qed.

Lemma setUp_spec h :
  ∃ r1 r2 r3 h',
    setUp h = mkState h' [r1; r2; r3] ∅ 3
    ∧ obj h' r1 = Node_init "node1"
    ∧ obj h' r2 = Node_init "node2"
    ∧ obj h' r3 = Node_init "node3"
    ∧ is_Some (h' !! r1) ∧ is_Some (h' !! r2) ∧ is_Some (h' !! r3).
Proof.
  pose (h1 := alloc "node1" h). pose (h2 := alloc "node2" h1).
  exists (new_ref h), (new_ref h1), (new_ref h2), (alloc "node3" h2).
  assert (is_Some (h1 !! new_ref h)) as S1
    by (unfold h1, alloc; rewrite lookup_insert_eq; eauto).
  assert (is_Some (h2 !! new_ref h1)) as S2
    by (unfold h2, alloc; rewrite lookup_insert_eq; eauto).
  assert (is_Some (h2 !! new_ref h)) as S1'
    by (unfold h2; rewrite alloc_lookup_ne; done).
  split; [reflexivity|].
  repeat split.
  - rewrite (alloc_obj_ne "node3" h2) by done.
    unfold h2. rewrite (alloc_obj_ne "node2" h1) by done.
    apply alloc_obj_new.
  - rewrite (alloc_obj_ne "node3" h2) by done. apply alloc_obj_new.
  - apply alloc_obj_new.
  - by rewrite alloc_lookup_ne.
  - by rewrite alloc_lookup_ne.
  - unfold alloc. rewrite lookup_insert_eq. eauto.
Qed.

(** The four tests pass whatever [random.sample] draws and whatever
    objects earlier tests left behind. *)
Theorem TestCase_passes `{Digest} draws h :
  TestCase_test_add_node h = true
  ∧ TestCase_test_store_file draws h = true
  ∧ TestCase_test_retrieve_file draws h = true
  ∧ TestCase_test_delete_file draws h = true.
Proof.
  destruct (setUp_spec h)
    as (r1 & r2 & r3 & h' & E & O1 & O2 & O3 & S1 & S2 & S3).
  assert (registry_allocated (setUp h)) as Halloc.
  { rewrite E. intros r Hr. simpl in Hr.
    repeat (apply elem_of_cons in Hr as [->|Hr]; [done|]).
    by apply elem_of_nil in Hr. }
  assert (distinct_ids (setUp h)) as Hd.
  { rewrite E. intros r Hr. simpl in *.
    repeat (apply elem_of_cons in Hr as [->|Hr];
            [by rewrite ?O1, ?O2, ?O3|]).
    by apply elem_of_nil in Hr. }
  destruct (store_file_fresh draws "test.txt" (encode_utf8 "Hello World")
              (setUp h)) as (sel & Hsel & Hstore).
  { by rewrite E. }
  { rewrite E. simpl. lia. }
  assert (sel ≠ []) as Hsel_ne.
  { intros ->. apply random_sample_length in Hsel. rewrite E in Hsel.
    simpl in Hsel. lia. }
  assert (∀ r, r ∈ sel → r ∈ nodes (setUp h)) as Hin
    by (intros r Hr; by eapply random_sample_elem_of).
  split; [|split; [|split]].
  - unfold TestCase_test_add_node, route_add_node. simpl.
    rewrite json_first, json_second by done.
    by rewrite !bool_decide_eq_true_2.
  - unfold TestCase_test_store_file, route_store_file. rewrite Hstore. simpl.
    rewrite json_first, json_second by done.
    by rewrite !bool_decide_eq_true_2 by eauto.
  - unfold TestCase_test_retrieve_file, route_store_file. rewrite Hstore.
    cbv beta iota. cbn [json]. rewrite json_second by done.
    unfold route_retrieve_file.
    rewrite retrieve_after_fresh_store by done.
    rewrite decode_encode_utf8 by (vm_compute; reflexivity). simpl.
    rewrite json_first, json_second by done.
    by rewrite !bool_decide_eq_true_2.
  - unfold TestCase_test_delete_file, route_store_file. rewrite Hstore.
    simpl. rewrite json_second by done.
    unfold route_delete_file, delete_file. simpl.
    rewrite lookup_insert_eq. simpl.
    unfold route_retrieve_file, retrieve_file. simpl.
    rewrite lookup_delete_eq. simpl.
    rewrite !lookup_singleton_eq.
    by rewrite !bool_decide_eq_true_2.
Qed.

(** ** The registry: adding and removing *)

(** Adding a node whose id no registered node carries and then removing
    that id gives back the state before the two calls. *)
Theorem add_then_remove_node node st :
  find_node (objs st) (nodes st) (node_id (obj (objs st) node)) = None →
  state_of (remove_node (node_id (obj (objs st) node))
              (state_of (add_node node st)))
  = st.
Proof.
  intros Hnone. destruct st as [h ns fm k]. simpl in *. f_equal.
  rewrite filter_app, filter_cons_False, filter_nil, app_nil_r
    by (intros ?; done).
  rewrite find_node_None in Hnone.
  induction ns as [|n ns IH]; [done|].
  rewrite filter_cons_True by (apply Hnone; left).
  f_equal. apply IH. intros r ?. apply Hnone. by right.
Qed.

Lemma add_then_remove_node_witness :
  state_of (remove_node (node_id (obj (objs three_nodes_hello) 0%nat))
              (state_of (add_node 0%nat
                 (state_of (remove_node "node1" three_nodes_hello)))))
  = state_of (remove_node "node1" three_nodes_hello).
Proof.
  apply (add_then_remove_node 0%nat
           (state_of (remove_node "node1" three_nodes_hello))).
  vm_compute; reflexivity.
Defined.

Lemma run_remove_nodes `{Digest} nids st :
  objs (run (Remove_node <$> nids) st) = objs st
  ∧ file_map (run (Remove_node <$> nids) st) = file_map st
  ∧ ∀ r, r ∈ nodes (run (Remove_node <$> nids) st) →
         r ∈ nodes st ∧ node_id (obj (objs st) r) ∉ nids.
Proof.
  induction nids as [|nid nids IH] using rev_ind.
  - repeat split; [done|]. by intros ?%elem_of_nil.
  - rewrite fmap_app. cbn [fmap list_fmap]. rewrite run_snoc. simpl.
    destruct IH as (Ho & Hf & Hn).
    split; [done|]. split; [done|].
    intros r [Hne Hr]%list_elem_of_filter. rewrite Ho in Hne.
    split; [by apply Hn|].
    intros [?|?%list_elem_of_singleton]%elem_of_app; [|done].
    by apply (Hn r Hr).
Qed.

(** Once [remove_node] has been called for every id that a record lists,
    the record is still there and [retrieve_file] takes the
    not-retrievable exit, whatever the nodes that left still hold. *)
Theorem retrieve_after_all_removed `{Digest} fid st e :
  file_map st !! fid = Some e →
  file_map (run (Remove_node <$> entry_nodes e) st) !! fid = Some e
  ∧ retrieve_file fid (run (Remove_node <$> entry_nodes e) st)
    = Returned None (run (Remove_node <$> entry_nodes e) st)
        [Error_not_retrievable fid].
Proof.
  intros He.
  destruct (run_remove_nodes (entry_nodes e) st) as (Ho & Hf & Hn).
  rewrite Hf. split; [done|].
  unfold retrieve_file. rewrite Hf, He.
  rewrite retrieve_loop_None; [done|].
  intros nid r data Hin [Hr Hid]%find_node_elem_of _.
  rewrite Ho in Hid. destruct (Hn r Hr) as [_ Hnot]. by rewrite Hid in Hnot.
Qed.

Lemma retrieve_after_all_removed_witness :
  file_map (run (H := sha256) (Remove_node <$> ["node1"; "node2"; "node3"])
              three_nodes_hello) !! hello_id
  = Some (mkEntry "test.txt" ["node1"; "node2"; "node3"])
  ∧ retrieve_file hello_id
      (run (H := sha256) (Remove_node <$> ["node1"; "node2"; "node3"])
         three_nodes_hello)
    = Returned None
        (run (H := sha256) (Remove_node <$> ["node1"; "node2"; "node3"])
           three_nodes_hello)
        [Error_not_retrievable hello_id].
Proof.
  apply (retrieve_after_all_removed (H := sha256) hello_id three_nodes_hello
           (mkEntry "test.txt" ["node1"; "node2"; "node3"])).
  vm_compute; reflexivity.
Defined.
